(** * Inspired Librarian: recommendation pipeline and cover resolution

    A shallow embedding of [services/geminiService.ts] (catalog loader,
    grade ranges, relevance scorer, recommendation orchestrator, cover-match
    verification) and of the cover race of [components/BookCard.tsx].

    JavaScript strings are modelled by [string]; a character stands for the
    UTF-16 code unit of the same number, so the model covers the strings
    whose code units are all below 256.  Integers are [Z]; the combined
    score (integer relevance plus a jitter in [0,1)) is a rational. *)

From Stdlib Require Import ZArith QArith Lqa Lia Ascii.
From stdpp Require Import gmap strings pretty list sorting.

Close Scope Q_scope.
Local Open Scope Z_scope.

(** ** JavaScript string primitives *)

Module Js.

Definition code (c : ascii) : N := N_of_ascii c.

Definition tab : ascii := "009"%char.
Definition newline : ascii := "010"%char.
Definition dquote : string := String "034"%char "".

(** [String.prototype.toLowerCase] on one code unit below 256: A-Z and the
    Latin-1 capitals U+00C0..U+00DE (except the multiplication sign). *)
Definition lowerChar (c : ascii) : ascii :=
  let n := code c in
  if ((65 <=? n) && (n <=? 90) || (192 <=? n) && (n <=? 222) && negb (n =? 215))%N
  then ascii_of_N (n + 32) else c.

Fixpoint toLowerCase (s : string) : string :=
  match s with
  | EmptyString => EmptyString
  | String c r => String (lowerChar c) (toLowerCase r)
  end.

(** White space and line terminators below 256: TAB, LF, VT, FF, CR, SP,
    NBSP. *)
Definition isWhite (c : ascii) : bool :=
  let n := code c in
  ((9 <=? n) && (n <=? 13) || (n =? 32) || (n =? 160))%N.

Fixpoint trimStart (s : string) : string :=
  match s with
  | EmptyString => EmptyString
  | String c r => if isWhite c then trimStart r else s
  end.

Definition isEmpty (s : string) : bool :=
  match s with EmptyString => true | _ => false end.

Fixpoint trimEnd (s : string) : string :=
  match s with
  | EmptyString => EmptyString
  | String c r =>
      let r' := trimEnd r in
      if isWhite c && isEmpty r' then EmptyString else String c r'
  end.

Definition trim (s : string) : string := trimEnd (trimStart s).

Fixpoint startsWith (s p : string) : bool :=
  match p, s with
  | EmptyString, _ => true
  | String _ _, EmptyString => false
  | String a p', String b s' => Ascii.eqb a b && startsWith s' p'
  end.

(** [s.includes(q)]: [q] occurs in [s] as a contiguous substring. *)
Fixpoint includes (s q : string) : bool :=
  startsWith s q ||
  match s with
  | EmptyString => false
  | String _ r => includes r q
  end.

(** [s.split(sep)] for a one-character separator: never empty. *)
Fixpoint split (sep : ascii) (s : string) : list string :=
  match s with
  | EmptyString => [EmptyString]
  | String c r =>
      if Ascii.eqb c sep then EmptyString :: split sep r
      else match split sep r with
           | h :: t => String c h :: t
           | [] => [String c EmptyString]
           end
  end.

(** A value in boolean position: [undefined] and the empty string are
    falsy. *)
Definition truthy (o : option string) : bool :=
  match o with
  | Some s => negb (isEmpty s)
  | None => false
  end.

(** [a || d] for an optional string [a] and a default [d]. *)
Definition orElse (o : option string) (d : string) : string :=
  match o with
  | Some s => if isEmpty s then d else s
  | None => d
  end.

(** String conversion of a possibly undefined value in a concatenation. *)
Definition str (o : option string) : string :=
  match o with
  | Some s => s
  | None => "undefined"
  end.

End Js.

(** ** The catalog entry *)

(** Value of a [number] produced by [parseFloat]: not-a-number, an infinity,
    or the finite double nearest to [(-1)^neg * mant * 10^exp]. *)
Inductive jsnum : Type :=
  | NaN
  | Infinity (neg : bool)
  | Decimal (neg : bool) (mant : N) (exp : Z).

(** [genre] and [theme] are read from columns 8 and 10, which a row of eight
    columns does not have: they are [undefined] there. *)
Record RawBook : Type := {
  id : string;
  code : string;
  title : string;
  series : string;
  author : string;
  lexile : string;
  bl : jsnum;
  genre : option string;
  theme : option string;
  summary : string
}.

(** ** Relevance scorer *)

Definition addIf (b : bool) (points score : Z) : Z :=
  if b then score + points else score.

Definition anyOf (text : string) (keywords : list string) : bool :=
  existsb (Js.includes text) keywords.

(** The nine theme buckets, in source order. *)
Definition themeBuckets : list (string * list string) :=
  [ ("animals", ["animal"; "dog"; "cat"; "zoo"; "bird"; "nature"]);
    ("fantasy", ["magic"; "fantasy"; "wizard"; "dragon"; "fairy"]);
    ("history", ["history"; "past"; "biography"; "president"; "war"]);
    ("science", ["science"; "space"; "planet"; "math"; "discover"]);
    ("friendship", ["friend"; "feeling"; "social"; "family"]);
    ("mystery", ["mystery"; "detective"; "solve"; "adventure"; "secret"]);
    ("sports", ["sport"; "soccer"; "baseball"; "game"; "hobby"]);
    ("holidays", ["holiday"; "christmas"; "thanksgiving"; "season"]);
    ("humor", ["humor"; "funny"; "silly"; "clown"; "joke"]) ].

(** The four seasonal months, in source order. *)
Definition seasonalMonths : list (string * list string) :=
  [ ("january", ["snow"; "winter"]);
    ("february", ["valentine"; "heart"]);
    ("october", ["halloween"; "pumpkin"]);
    ("december", ["christmas"; "holiday"]) ].

Definition themeScore (t text : string) (score : Z) : Z :=
  if String.eqb t "all themes" then score
  else fold_left
         (fun sc bucket => addIf (Js.includes t (fst bucket) && anyOf text (snd bucket)) 30 sc)
         themeBuckets score.

Definition seasonalScore (m text : string) (score : Z) : Z :=
  fold_left
    (fun sc season => addIf (String.eqb m (fst season) && anyOf text (snd season)) 5 sc)
    seasonalMonths score.

Definition searchableText (book : RawBook) : string :=
  Js.toLowerCase
    (title book +:+ " " +:+ author book +:+ " " +:+ Js.str (theme book) +:+ " "
     +:+ summary book +:+ " " +:+ Js.str (genre book)).

(** The guard [query && query.trim().length > 0]. *)
Definition queryActive (query : option string) : bool :=
  match query with
  | Some q => negb (Js.isEmpty q) && negb (Js.isEmpty (Js.trim q))
  | None => false
  end.

Definition normalizedQuery (q : string) : string := Js.trim (Js.toLowerCase q).

Definition queryScore (book : RawBook) (text q : string) : Z :=
  addIf (Js.includes text q) 20
    (addIf (Js.includes (Js.toLowerCase (author book)) q) 40
       (addIf (Js.includes (Js.toLowerCase (title book)) q) 50 0)).

Definition getRelevancyScore
    (book : RawBook) (month theme : string) (query : option string) : Z :=
  let m := Js.toLowerCase month in
  let t := Js.toLowerCase theme in
  let text := searchableText book in
  let bonuses := fun score => seasonalScore m text (themeScore t text score) in
  match query with
  | Some q =>
      if queryActive query then
        let score := queryScore book text (normalizedQuery q) in
        if score <? 20 then -100 else bonuses score
      else bonuses 0
  | None => bonuses 0
  end.

(** ** Catalog loader *)

Definition isDigit (c : ascii) : bool :=
  let n := Js.code c in ((48 <=? n) && (n <=? 57))%N.

(** Longest prefix of decimal digits, and what follows it. *)
Fixpoint spanDigits (s : string) : string * string :=
  match s with
  | EmptyString => (EmptyString, EmptyString)
  | String c r =>
      if isDigit c then let (ds, rest) := spanDigits r in (String c ds, rest)
      else (EmptyString, s)
  end.

Fixpoint digitsValue (acc : N) (ds : string) : N :=
  match ds with
  | EmptyString => acc
  | String c r => digitsValue (10 * acc + (Js.code c - 48))%N r
  end.

Definition stripSign (s : string) : bool * string :=
  match s with
  | String c r =>
      if Ascii.eqb c "-" then (true, r)
      else if Ascii.eqb c "+" then (false, r)
      else (false, s)
  | EmptyString => (false, s)
  end.

(** Value of an [ExponentPart] at the head of [s]; 0 when there is none. *)
Definition exponentPart (s : string) : Z :=
  match s with
  | String c r =>
      if Ascii.eqb c "e" || Ascii.eqb c "E" then
        let (neg, r') := stripSign r in
        let (ds, _) := spanDigits r' in
        if Js.isEmpty ds then 0
        else if neg then - Z.of_N (digitsValue 0 ds) else Z.of_N (digitsValue 0 ds)
      else 0
  | EmptyString => 0
  end.

(** [mant * 10^exp] rounds to an infinite double: it reaches the midpoint
    between the largest double and 2^1024. *)
Definition overflows (mant : N) (exp : Z) : bool :=
  let limit := 2 ^ 1024 - 2 ^ 970 in
  if 0 <=? exp then limit <=? Z.of_N mant * 10 ^ exp
  else limit * 10 ^ (- exp) <=? Z.of_N mant.

(** [parseFloat]: leading white space is skipped, then the longest prefix that
    is a [StrDecimalLiteral] is read; whatever follows it is ignored. *)
Definition parseFloat (s : string) : jsnum :=
  let (neg, r) := stripSign (Js.trimStart s) in
  if Js.startsWith r "Infinity" then Infinity neg
  else
    let (ip, r1) := spanDigits r in
    let (fp, r2) :=
      match r1 with
      | String c r1' => if Ascii.eqb c "." then spanDigits r1' else (EmptyString, r1)
      | EmptyString => (EmptyString, r1)
      end in
    if Js.isEmpty ip && Js.isEmpty fp then NaN
    else
      let mant := digitsValue 0 (ip +:+ fp) in
      let exp := exponentPart r2 - Z.of_nat (String.length fp) in
      if overflows mant exp then Infinity neg else Decimal neg mant exp.

Definition isNaN (x : jsnum) : bool :=
  match x with NaN => true | _ => false end.

Definition isFinite (x : jsnum) : bool :=
  match x with Decimal _ _ _ => true | _ => false end.

(** [cols[i]] for an index the length guard has shown to be in range. *)
Definition col (i : nat) (cols : list string) : string := nth i cols EmptyString.

(** Body of the loop of [parseBookData]: [None] is [continue]. *)
Definition parseLine (line : string) : option RawBook :=
  let cols := Js.split Js.tab line in
  if (length cols <? 8)%nat then None
  else
    let bl := parseFloat (col 7 cols) in
    if isNaN bl then None
    else Some {| id := col 0 cols;
                 code := col 2 cols;
                 title := col 3 cols;
                 series := col 4 cols;
                 author := col 5 cols;
                 lexile := col 6 cols;
                 bl := bl;
                 genre := cols !! 8%nat;
                 theme := cols !! 10%nat;
                 summary := Js.orElse (cols !! 12%nat) "" |}.

Definition datasetLines (tsvData : string) : list string :=
  Js.split Js.newline (Js.trim tsvData).

Definition parseBookData (tsvData : string) : list RawBook :=
  omap parseLine (datasetLines tsvData).

(** What [parseFloat] accepts, in words: after leading white space and an
    optional sign, the text starts with [Infinity], with a digit, or with a
    dot followed by a digit. *)
Definition startsNumeral (s : string) : bool :=
  let (_, r) := stripSign (Js.trimStart s) in
  Js.startsWith r "Infinity" ||
  match r with
  | String c r' =>
      isDigit c ||
      Ascii.eqb c "." && match r' with String d _ => isDigit d | EmptyString => false end
  | EmptyString => false
  end.

(** ** Grade range resolver *)

Definition getBlRange (grade : string) : Q * Q :=
  let g := Js.toLowerCase grade in
  if Js.includes g "1st" then (0.1, 1.5)%Q
  else if Js.includes g "2nd" then (1.0, 2.8)%Q
  else if Js.includes g "3rd" then (2.0, 3.8)%Q
  else if Js.includes g "4th" then (3.0, 4.8)%Q
  else if Js.includes g "5th" then (3.5, 6.0)%Q
  else if Js.includes g "6th" then (3.5, 8.0)%Q
  else (0.1, 13.0)%Q.

(** ** Recommendation cache key *)

Definition CACHE_KEY_PREFIX : string := "cec_recs_v13_".

(** The template literal of [cacheKey]; [limit] is an integer, printed in
    decimal. *)
Definition cacheKey
    (grade month theme : string) (limit : Z) (query : option string) : string :=
  CACHE_KEY_PREFIX +:+ grade +:+ "_" +:+ theme +:+ "_" +:+ month
    +:+ "_count_" +:+ pretty limit +:+ "_search_" +:+ Js.orElse query "none".

(** ** Candidate selection *)

Record ScoredCandidate : Type := { candidate : RawBook; score : Q }.

(** [candidates.map(b => ({...b, score: ... + Math.random()}))
      .filter(b => b.score > -5)]; [random i] is the value of the i-th call
    of [Math.random].  The sum is exact here; the relevance being an integer
    and the jitter lying in [0,1), rounding the sum to a double does not
    change its comparison with -5. *)
Definition scoreCandidates
    (random : nat -> Q) (month theme : string) (query : option string)
    (candidates : list RawBook) : list ScoredCandidate :=
  List.filter
    (fun c => negb (Qle_bool (score c) (-5)))
    (imap (fun i b =>
             {| candidate := b;
                score := (inject_Z (getRelevancyScore b month theme query) + random i)%Q |})
          candidates).

(** [sort((a, b) => b.score - a.score)]: descending and stable. *)
Fixpoint insertByScore (c : ScoredCandidate) (sorted : list ScoredCandidate)
    : list ScoredCandidate :=
  match sorted with
  | [] => [c]
  | d :: rest =>
      if Qle_bool (score d) (score c) then c :: sorted
      else d :: insertByScore c rest
  end.

Definition sortByScore (l : list ScoredCandidate) : list ScoredCandidate :=
  foldr insertByScore [] l.

(** ** Recommendation orchestrator *)

(** Mandatory category split: (mustReadCount, recommendedCount). *)
Definition categorySplit (limit : Z) : Z * Z :=
  let mustReadCount := Z.max 5 (limit / 2) in
  let recommendedCount := limit - mustReadCount in
  (mustReadCount, recommendedCount).

(** The holes of the prompt template. *)
Record Prompt : Type := {
  promptLimit : Z;
  promptGrade : string;
  promptTheme : string;
  promptMonth : string;
  promptQuery : string;
  sourceMaterial : list ScoredCandidate;
  mustReadCount : Z;
  recommendedCount : Z
}.

(** What awaiting [ai.models.generateContent] gives: a rejection, or a
    response whose [text] may be undefined. *)
Inductive response : Type :=
  | Rejected
  | Response (text : option string).

Inductive error : Type :=
  | Error (message : string)
  | ServiceError
  | SyntaxError.

Inductive outcome (A : Type) : Type :=
  | Returned (value : A)
  | Thrown (e : error).
Arguments Returned {A} value.
Arguments Thrown {A} e.

(** A parsed recommendation payload; [books] is [None] when the property is
    missing. *)
Record RecommendationResult (Book : Type) : Type := { books : option (list Book) }.
Arguments books {Book} r.

Definition hasBooks {Book : Type} (result : RecommendationResult Book) : bool :=
  match books result with
  | Some (_ :: _) => true
  | _ => false
  end.

(** The text parsed when the response carries none. *)
Definition emptyBooksText : string :=
  "{ " +:+ Js.dquote +:+ "books" +:+ Js.dquote +:+ ": [] }".

(** Durable storage together with the [setItem] calls made on it. *)
Record Storage : Type := {
  items : gmap string string;
  setItemCalls : list (string * string)
}.

Definition getItem (key : string) (st : Storage) : option string := items st !! key.

Definition setItem (key value : string) (st : Storage) : Storage :=
  {| items := <[key := value]> (items st);
     setItemCalls := setItemCalls st ++ [(key, value)] |}.

Definition removeItem (key : string) (st : Storage) : Storage :=
  {| items := delete key (items st); setItemCalls := setItemCalls st |}.

Section Orchestrator.

Variable Book : Type.
(** [JSON.parse] on a recommendation payload ([None]: it throws) and
    [JSON.stringify]. *)
Variable JSON_parse : string -> option (RecommendationResult Book).
Variable JSON_stringify : RecommendationResult Book -> string.
(** The raw dataset of [constants.ts]. *)
Variable RAW_BOOK_DATABASE_TSV : string.
(** [bl >= (min - 0.3) && bl <= (max + 0.3)] in double arithmetic, as a
    test on [bl], [min] and [max]. *)
Variable withinWidenedRange : jsnum -> Q -> Q -> bool.

Definition ALL_BOOKS_DATABASE : list RawBook := parseBookData RAW_BOOK_DATABASE_TSV.

Definition topCandidates
    (random : nat -> Q) (grade month theme : string) (limit : Z)
    (query : option string) : list ScoredCandidate :=
  let '(min, max) := getBlRange grade in
  let candidates :=
    if Js.truthy query then ALL_BOOKS_DATABASE
    else List.filter (fun b => withinWidenedRange (bl b) min max) ALL_BOOKS_DATABASE in
  let scoredCandidates := sortByScore (scoreCandidates random month theme query candidates) in
  take (Z.to_nat (Z.max 40 (limit * 2))) scoredCandidates.

(** The cache read at the head of the function: a hit returns the parsed
    entry, an entry that does not parse is removed. *)
Definition readCache (key : string) (st : Storage)
    : option (RecommendationResult Book) * Storage :=
  match getItem key st with
  | Some cachedData =>
      if Js.isEmpty cachedData then (None, st)
      else match JSON_parse cachedData with
           | Some result => (Some result, st)
           | None => (None, removeItem key st)
           end
  | None => (None, st)
  end.

Definition buildPrompt
    (top : list ScoredCandidate) (grade month theme : string) (limit : Z)
    (query : option string) : Prompt :=
  let '(mustRead, recommended) := categorySplit limit in
  {| promptLimit := limit;
     promptGrade := grade;
     promptTheme := theme;
     promptMonth := month;
     promptQuery := Js.orElse query "N/A";
     sourceMaterial := top;
     mustReadCount := mustRead;
     recommendedCount := recommended |}.

Definition generateBookRecommendations
    (API_KEY : option string) (random : nat -> Q) (generateContent : Prompt -> response)
    (localStorage : Storage)
    (grade month theme : string) (limit : Z) (query : option string)
    : outcome (RecommendationResult Book) * Storage :=
  let key := cacheKey grade month theme limit query in
  match readCache key localStorage with
  | (Some cached, st) => (Returned cached, st)
  | (None, st) =>
      if negb (Js.truthy API_KEY) then (Thrown (Error "API Key is missing."), st)
      else
        let top := topCandidates random grade month theme limit query in
        if Js.truthy query && (length top =? 0)%nat then (Returned {| books := Some [] |}, st)
        else
          match generateContent (buildPrompt top grade month theme limit query) with
          | Rejected => (Thrown ServiceError, st)
          | Response text =>
              match JSON_parse (Js.orElse text emptyBooksText) with
              | None => (Thrown SyntaxError, st)
              | Some result =>
                  if hasBooks result
                  then (Returned result, setItem key (JSON_stringify result) st)
                  else (Returned result, st)
              end
          end
  end.

End Orchestrator.

(** ** Cover-match verification *)

Record Verdict : Type := { isMatch : bool; reason : string }.

Record ImageRequest : Type := { inlineData : string; requestText : string }.

Definition noResponseText : string :=
  "{" +:+ Js.dquote +:+ "isMatch" +:+ Js.dquote +:+ ": false, "
    +:+ Js.dquote +:+ "reason" +:+ Js.dquote +:+ ": "
    +:+ Js.dquote +:+ "No response" +:+ Js.dquote +:+ "}".

Definition verificationFailed : Verdict :=
  {| isMatch := false; reason := "Verification service failed." |}.

(** The image part and the text part sent to the service. *)
Definition verificationRequest (base64Image title author : string) : ImageRequest :=
  let base64Data := Js.orElse (Js.split "," base64Image !! 1%nat) base64Image in
  let prompt :=
    "Verify if this is the cover for " +:+ Js.dquote +:+ title +:+ Js.dquote
      +:+ " by " +:+ Js.dquote +:+ author +:+ Js.dquote +:+ "." in
  {| inlineData := base64Data; requestText := prompt |}.

Section Verification.

(** [JSON.parse] on a verdict payload; [None]: it throws. *)
Variable JSON_parse : string -> option Verdict.

Definition verifyBookCoverMatch
    (API_KEY : option string) (generateContent : ImageRequest -> response)
    (base64Image title author : string) : outcome Verdict :=
  if negb (Js.truthy API_KEY) then Thrown (Error "API Key is missing.")
  else
    match generateContent (verificationRequest base64Image title author) with
    | Rejected => Returned verificationFailed
    | Response text =>
        match JSON_parse (Js.orElse text noResponseText) with
        | Some verdict => Returned verdict
        | None => Returned verificationFailed
        end
    end.

End Verification.

(** ** Cover resolution engine *)

Module Cover.

Definition hexDigit (n : N) : ascii :=
  if (n <? 10)%N then ascii_of_N (48 + n) else ascii_of_N (55 + n).

Definition percentByte (n : N) (rest : string) : string :=
  String "%" (String (hexDigit (n / 16)) (String (hexDigit (n mod 16)) rest)).

(** Characters [encodeURIComponent] leaves alone: letters, digits and
    [- _ . ! ~ * ' ( )]. *)
Definition isUnreserved (c : ascii) : bool :=
  let n := Js.code c in
  ((65 <=? n) && (n <=? 90) || (97 <=? n) && (n <=? 122) || (48 <=? n) && (n <=? 57)
   || (n =? 45) || (n =? 95) || (n =? 46) || (n =? 33) || (n =? 126)
   || (n =? 42) || (n =? 39) || (n =? 40) || (n =? 41))%N.

(** [encodeURIComponent] on code units below 256: the UTF-8 bytes of every
    other character are percent-escaped (two bytes from U+0080 on). *)
Fixpoint encodeURIComponent (s : string) : string :=
  match s with
  | EmptyString => EmptyString
  | String c r =>
      let n := Js.code c in
      if isUnreserved c then String c (encodeURIComponent r)
      else if (n <? 128)%N then percentByte n (encodeURIComponent r)
      else percentByte (192 + n / 64) (percentByte (128 + n mod 64) (encodeURIComponent r))
  end.

Fixpoint drop (n : nat) (s : string) : string :=
  match n, s with
  | S k, String _ r => drop k r
  | _, _ => s
  end.

(** [url.replace(/^https?:\/\//, '')]. *)
Definition stripProtocol (url : string) : string :=
  if Js.startsWith url "http://" then drop 7 url
  else if Js.startsWith url "https://" then drop 8 url
  else url.

Definition proxied (url : string) : string :=
  "https://wsrv.nl/?url=" +:+ encodeURIComponent (stripProtocol url) +:+ "&w=400&output=webp".

Definition getProxiedUrl (url : string) : string :=
  if Js.startsWith url "data:" then url else proxied url.

(** How the promise of one source lookup settles: fulfilled with a value
    (a URL, or null), or rejected. *)
Inductive lookup : Type :=
  | Fulfilled (url : option string)
  | Failed.

(** The race promise and the [failures] counter of its executor;
    [settled = None] while the promise is pending. *)
Record Race : Type := {
  failures : nat;
  settled : option (option string)
}.

Definition newRace : Race := {| failures := 0; settled := None |}.

(** [resolve(v)]: only the first call settles the promise. *)
Definition resolve (v : option string) (r : Race) : Race :=
  match settled r with
  | None => {| failures := failures r; settled := Some v |}
  | Some _ => r
  end.

Definition checkFailure (r : Race) : Race :=
  let r' := {| failures := S (failures r); settled := settled r |} in
  if (failures r' =? 2)%nat then resolve None r' else r'.

(** The [then]/[catch] pair attached to a lookup. *)
Definition onLookup (l : lookup) (r : Race) : Race :=
  match l with
  | Fulfilled url =>
      if Js.truthy url then resolve (Some (getProxiedUrl (Js.orElse url ""))) r
      else checkFailure r
  | Failed => checkFailure r
  end.

(** The race once both lookups have settled, in either order. *)
Definition race (googleBooks openLibrary : lookup) (googleFirst : bool) : Race :=
  if googleFirst then onLookup openLibrary (onLookup googleBooks newRace)
  else onLookup googleBooks (onLookup openLibrary newRace).

Inductive source : Type := GoogleBooks | OpenLibrary.

(** The two module-level maps, and the lookups issued so far. *)
Record State : Type := {
  coverCache : gmap string string;
  promiseCache : gmap string Race;
  issued : list (string * source)
}.

Definition coverKey (title author : string) : string := title +:+ "-" +:+ author.

(** [loadCover] up to its [await]: a race is started, and both lookups
    issued, only when [promiseCache] has no entry for the key. *)
Definition loadCover (key : string) (st : State) : State :=
  match promiseCache st !! key with
  | Some _ => st
  | None =>
      {| coverCache := coverCache st;
         promiseCache := <[key := newRace]> (promiseCache st);
         issued := issued st ++ [(key, GoogleBooks); (key, OpenLibrary)] |}
  end.

(** A lookup of the race stored under [key] settles. *)
Definition lookupSettles (key : string) (l : lookup) (st : State) : State :=
  {| coverCache := coverCache st;
     promiseCache := alter (onLookup l) key (promiseCache st);
     issued := issued st |}.

(** [loadCover] after its [await]: [None] while the promise is pending,
    else the new state and the awaited value. *)
Definition resume (key : string) (isMounted : bool) (st : State)
    : option (State * option string) :=
  match promiseCache st !! key with
  | Some {| settled := Some url |} =>
      if isMounted && Js.truthy url
      then Some ({| coverCache := <[key := Js.orElse url ""]> (coverCache st);
                    promiseCache := promiseCache st;
                    issued := issued st |}, url)
      else Some (st, url)
  | _ => None
  end.

(** One resolution run to completion: the effect returns the completed
    cover when [coverCache] has one; otherwise [loadCover] is called, the
    lookups it issued (if any) settle in the given order, and the
    continuation runs. *)
Definition resolveCover
    (key : string) (googleBooks openLibrary : lookup) (googleFirst isMounted : bool)
    (st : State) : option (State * option string) :=
  match coverCache st !! key with
  | Some url => Some (st, Some url)
  | None =>
      let st1 := loadCover key st in
      let st2 :=
        match promiseCache st !! key with
        | Some _ => st1
        | None =>
            if googleFirst
            then lookupSettles key openLibrary (lookupSettles key googleBooks st1)
            else lookupSettles key googleBooks (lookupSettles key openLibrary st1)
        end in
      resume key isMounted st2
  end.

(** A lookup that does not resolve the race: rejected, or fulfilled with
    null or the empty string. *)
Definition lookupFails (l : lookup) : bool :=
  match l with
  | Fulfilled url => negb (Js.truthy url)
  | Failed => true
  end.

(** A lookup fulfilled with the image URL [u]. *)
Definition lookupYields (l : lookup) (u : string) : Prop :=
  l = Fulfilled (Some u) /\ Js.isEmpty u = false.

Definition initial : State :=
  {| coverCache := ∅; promiseCache := ∅; issued := [] |}.

End Cover.

(** ** Cover sources and the card *)

Module Card.

(** [s.replace(pattern, replacement)] for a string pattern and a replacement
    without [$]: the first occurrence is replaced. *)
Fixpoint replaceFirst (pattern replacement s : string) : string :=
  if Js.startsWith s pattern
  then replacement +:+ Cover.drop (String.length pattern) s
  else match s with
       | EmptyString => EmptyString
       | String c r => String c (replaceFirst pattern replacement r)
       end.

(** The parts of the Open Library search response the lookup reads. *)
Record OpenLibraryDoc : Type := { cover_i : option Z }.

(** [fetchOpenLibrary]; the response is [None] when [fetch] or [json()]
    throws, and holds [data.docs] otherwise.  Whatever goes wrong ends in
    the rejection "OL no cover". *)
Definition fetchOpenLibrary (response : option (option (list OpenLibraryDoc)))
    : Cover.lookup :=
  match response with
  | Some (Some ({| cover_i := Some n |} :: _)) =>
      if n =? 0 then Cover.Failed
      else Cover.Fulfilled
             (Some ("https://covers.openlibrary.org/b/id/" +:+ pretty n +:+ "-L.jpg"))
  | _ => Cover.Failed
  end.

(** The parts of the Google Books response the lookup reads. *)
Record ImageLinks : Type := { thumbnail : option string; smallThumbnail : option string }.
Record VolumeInfo : Type := { imageLinks : option ImageLinks }.
Record Volume : Type := { volumeInfo : option VolumeInfo }.

(** [fetchGoogleBooks]; reading [imageLinks] of a missing [volumeInfo]
    throws inside the [try], which ends in the rejection "GB no cover". *)
Definition fetchGoogleBooks (response : option (option (list Volume))) : Cover.lookup :=
  match response with
  | Some (Some ({| volumeInfo := Some {| imageLinks := Some links |} |} :: _)) =>
      let url := if Js.truthy (thumbnail links) then thumbnail links else smallThumbnail links in
      if Js.truthy url
      then Cover.Fulfilled
             (Some (replaceFirst "&zoom=1" "&zoom=0"
                      (replaceFirst "http://" "https://" (Js.orElse url ""))))
      else Cover.Failed
  | _ => Cover.Failed
  end.

(** The effect of the card: a manual override is shown as it is and nothing
    is looked up; otherwise the cover is resolved. *)
Definition showCover
    (overrideUrl : option string) (key : string) (googleBooks openLibrary : Cover.lookup)
    (googleFirst isMounted : bool) (st : Cover.State)
    : option (Cover.State * option string) :=
  if Js.truthy overrideUrl then Some (st, overrideUrl)
  else Cover.resolveCover key googleBooks openLibrary googleFirst isMounted st.

(** State of a card, with the alerts it has raised. *)
Record State : Type := {
  coverUrl : option string;
  isVerifying : bool;
  alerts : list string
}.

Section Upload.

Variable JSON_parse : string -> option Verdict.

(** [handleFileChange] run to the end of its [finally]: [file] is the data
    URL the reader produced, [hasCallback] tells whether [onUpdateCover] was
    passed, and [overrides] is the map the callback updates
    ([handleUpdateCover] of the application). *)
Definition handleFileChange
    (API_KEY : option string) (generateContent : ImageRequest -> response)
    (bookId title author : string) (file : option string) (hasCallback : bool)
    (overrides : gmap string string) (s : State) : State * gmap string string :=
  match file with
  | Some base64String =>
      if hasCallback then
        match verifyBookCoverMatch JSON_parse API_KEY generateContent base64String title author with
        | Returned result =>
            if isMatch result
            then ({| coverUrl := Some base64String; isVerifying := false; alerts := alerts s |},
                  <[bookId := base64String]> overrides)
            else ({| coverUrl := coverUrl s; isVerifying := false;
                     alerts := alerts s ++
                       ["Verification Failed: " +:+
                        Js.orElse (Some (reason result))
                          "The uploaded image does not appear to match the book title and author."] |},
                  overrides)
        | Thrown _ =>
            ({| coverUrl := coverUrl s; isVerifying := false;
                alerts := alerts s ++
                  ["Verification service encountered an error. Please check your API key."] |},
             overrides)
        end
      else (s, overrides)
  | None => (s, overrides)
  end.

End Upload.

End Card.

(** ** The application *)

Module App.

(** [l.replace(/[^0-9]/g, '')]. *)
Fixpoint keepDigits (s : string) : string :=
  match s with
  | EmptyString => EmptyString
  | String c r => if isDigit c then String c (keepDigits r) else keepDigits r
  end.

(** [getLexileValue]; [parseInt(numeric, 10)] of a digit string is the double
    nearest to its decimal value (that value itself below 2^53, an infinity
    when it overflows), and the literal [0] is the number zero. *)
Definition getLexileValue (l : string) : jsnum :=
  let numeric := keepDigits l in
  if Js.isEmpty numeric then Decimal false 0 0
  else
    let value := digitsValue 0 numeric in
    if overflows value 0 then Infinity false else Decimal false value 0.

(** The callback of [escapeXml]. *)
Definition escapeChar (c : ascii) : string :=
  if Ascii.eqb c "<" then "&lt;"
  else if Ascii.eqb c ">" then "&gt;"
  else if Ascii.eqb c "&" then "&amp;"
  else if Ascii.eqb c "'" then "&apos;"
  else if Ascii.eqb c "034" then "&quot;"
  else String c EmptyString.

Fixpoint escapeXml (unsafe : string) : string :=
  match unsafe with
  | EmptyString => EmptyString
  | String c r => escapeChar c +:+ escapeXml r
  end.

(** The loop of [getCustomChunks], from index [i]; it stops by its
    condition, [fuel] only bounds the number of rounds. *)
Fixpoint chunkLoop {A : Type} (fuel i : nat) (allBooks : list A) : list (list A) :=
  match fuel with
  | O => []
  | S fuel' =>
      if (i <? length allBooks)%nat
      then take 5 (drop i allBooks) :: chunkLoop fuel' (i + 5) allBooks
      else []
  end.

Definition getCustomChunks {A : Type} (allBooks : list A) : list (list A) :=
  chunkLoop (length allBooks) 0 allBooks.

Inductive View : Type := Landing | Search | Monthly.

(** The state [handleFetchBooks] reads and sets. *)
Record State (Book : Type) : Type := {
  view : View;
  selectedGrade : string;
  selectedMonth : string;
  selectedTheme : string;
  recLimit : Z;
  activeSearch : string;
  shownBooks : list Book;
  loading : bool;
  error : option string
}.
Arguments view {Book} s.
Arguments selectedGrade {Book} s.
Arguments selectedMonth {Book} s.
Arguments selectedTheme {Book} s.
Arguments recLimit {Book} s.
Arguments activeSearch {Book} s.
Arguments shownBooks {Book} s.
Arguments loading {Book} s.
Arguments error {Book} s.


Section Fetch.

Variable Book : Type.
Variable JSON_parse : string -> option (RecommendationResult Book).
Variable JSON_stringify : RecommendationResult Book -> string.
Variable RAW_BOOK_DATABASE_TSV : string.
Variable withinWidenedRange : jsnum -> Q -> Q -> bool.


End Fetch.

Section Sections.

Variable Book : Type.
Variable category : Book -> string.
Variable difficulty : Book -> string.

Definition hasCategory (name : string) (b : Book) : bool := String.eqb (category b) name.

(** The two lists the monthly view renders. *)
Definition mustReadBooks (v : View) (displayBooks : list Book) : list Book :=
  match v with
  | Monthly => List.filter (hasCategory "Must Read") displayBooks
  | _ => []
  end.

Definition recommendedBooks (v : View) (displayBooks : list Book) : list Book :=
  match v with
  | Monthly => List.filter (hasCategory "Recommended Reading") displayBooks
  | _ => displayBooks
  end.

Definition countDifficulty (name : string) (shown : list Book) : nat :=
  length (List.filter (fun b => String.eqb (difficulty b) name) shown).

(** The slices of the difficulty chart. *)
Definition chartData (shown : list Book) : list (string * nat) :=
  List.filter (fun d => (0 <? snd d)%nat)
    [ ("Beginner", countDifficulty "Beginner" shown);
      ("Intermediate", countDifficulty "Intermediate" shown);
      ("Advanced", countDifficulty "Advanced" shown) ].

End Sections.

End App.

(** ** Service worker *)

Module ServiceWorker.

Definition CACHE_NAME : string := "cec-v1".

(** The [activate] handler on the caches of the origin, by name: every
    cache whose name is not in the whitelist is deleted. *)
Definition activate {Cache : Type} (caches : gmap string Cache) : gmap string Cache :=
  let cacheWhitelist := [CACHE_NAME] in
  foldr (fun cacheName cs =>
           if bool_decide (cacheName ∈ cacheWhitelist) then cs else delete cacheName cs)
        caches (map fst (map_to_list caches)).

End ServiceWorker.

(** ** Sample data *)

Definition charlotte : RawBook :=
  {| id := "7"; code := "M0007"; title := "Charlotte's Web"; series := "";
     author := "E.B. White"; lexile := "680L"; bl := Decimal false 34 (-1);
     genre := Some "Fiction"; theme := Some "Animals";
     summary := "A pig and a spider become friends." |}.

(** A dataset row from its columns. *)
Fixpoint row (cols : list string) : string :=
  match cols with
  | [] => EmptyString
  | [c] => c
  | c :: rest => c +:+ String Js.tab (row rest)
  end.

Definition infinityRow : string :=
  row ["1"; "X"; "M0001"; "Title"; ""; "Author"; "1L"; "Infinity"].

Definition infinityBook : RawBook :=
  {| id := "1"; code := "M0001"; title := "Title"; series := ""; author := "Author";
     lexile := "1L"; bl := Infinity false; genre := None; theme := None;
     summary := "" |}.

(** A book, theme and query that collect every contribution of the scorer. *)
Definition everything : RawBook :=
  {| id := "1"; code := "M0001"; title := "a"; series := ""; author := "a";
     lexile := "1L"; bl := Decimal false 1 0;
     genre := Some "magic history science friend mystery sport humor";
     theme := Some "animal";
     summary := "holiday" |}.

Definition everyTheme : string :=
  "Animals Fantasy History Science Friendship Mystery Sports Holidays Humor".

(** A stand-in for [JSON.parse] on recommendation payloads: two payloads
    parse, everything else is a syntax error. *)
Definition sampleParse (text : string) : option (RecommendationResult string) :=
  if String.eqb text "one" then Some {| books := Some ["Charlotte's Web"] |}
  else if String.eqb text emptyBooksText then Some {| books := Some [] |}
  else None.

Definition sampleStringify (result : RecommendationResult string) : string :=
  if hasBooks result then "one" else emptyBooksText.

(** A stand-in for [JSON.parse] on verdict payloads. *)
Definition sampleVerdictParse (text : string) : option Verdict :=
  if String.eqb text "yes" then Some {| isMatch := true; reason := "Cover matches." |}
  else None.

Definition emptyStorage : Storage := {| items := ∅; setItemCalls := [] |}.

(** The cover state after one resolution for the key "T-A" in which both
    lookups failed. *)
Definition failedOnce : Cover.State :=
  {| Cover.coverCache := ∅;
     Cover.promiseCache :=
       {[ Cover.coverKey "T" "A" := {| Cover.failures := 2; Cover.settled := Some None |} ]};
     Cover.issued := [("T-A", Cover.GoogleBooks); ("T-A", Cover.OpenLibrary)] |}.

(** * Properties *)

(** ** Strings *)

Lemma toLowerCase_app (a b : string) :
  Js.toLowerCase (a +:+ b) = Js.toLowerCase a +:+ Js.toLowerCase b.
Proof. induction a as [|c a IH]; simpl; [reflexivity | now rewrite IH]. Qed.

Lemma startsWith_app (a b q : string) :
  Js.startsWith a q = true -> Js.startsWith (a +:+ b) q = true.
Proof.
  revert a; induction q as [|c q IH]; intros a H; [now destruct (a +:+ b)|].
  destruct a as [|d a]; simpl in *; [discriminate|].
  apply andb_true_iff in H as [Hc Hq].
  rewrite Hc; simpl. now apply IH.
Qed.

Lemma includes_cons (c : ascii) (r q : string) :
  Js.includes (String c r) q = Js.startsWith (String c r) q || Js.includes r q.
Proof. reflexivity. Qed.

Lemma includes_app_l (a b q : string) :
  Js.includes a q = true -> Js.includes (a +:+ b) q = true.
Proof.
  induction a as [|c a IH]; intros H.
  - destruct q as [|d q]; [now destruct b | simpl in H; discriminate].
  - rewrite includes_cons in H.
    change (String c a +:+ b) with (String c (a +:+ b)). rewrite includes_cons.
    apply orb_true_iff in H as [H|H].
    + apply (startsWith_app _ b) in H.
      change (String c a +:+ b) with (String c (a +:+ b)) in H. now rewrite H.
    + rewrite (IH H). apply orb_true_r.
Qed.

Lemma includes_app_r (a b q : string) :
  Js.includes b q = true -> Js.includes (a +:+ b) q = true.
Proof.
  intros H. induction a as [|c a IH]; [exact H|].
  change (String c a +:+ b) with (String c (a +:+ b)). rewrite includes_cons.
  rewrite IH. apply orb_true_r.
Qed.

Lemma string_length_app (a b : string) :
  String.length (a +:+ b) = (String.length a + String.length b)%nat.
Proof. induction a as [|c a IH]; simpl; [reflexivity | now rewrite IH]. Qed.

Lemma string_app_inv_tail (a b r : string) : a +:+ r = b +:+ r -> a = b.
Proof.
  revert b; induction a as [|c a IH]; intros [|d b] H; simpl in H.
  - reflexivity.
  - apply (f_equal String.length) in H.
    rewrite !string_length_app in H. simpl in H. lia.
  - apply (f_equal String.length) in H.
    rewrite !string_length_app in H. simpl in H. lia.
  - injection H as -> H. f_equal. now apply IH.
Qed.

(** ** Bounds on the score contributions *)

Lemma addIf_bounds (b : bool) (p s : Z) : 0 <= p -> s <= addIf b p s <= s + p.
Proof. unfold addIf; destruct b; lia. Qed.

Lemma fold_addIf_bounds {A : Type} (f : A -> bool) (p : Z) (l : list A) (s : Z) :
  0 <= p ->
  s <= fold_left (fun sc x => addIf (f x) p sc) l s <= s + p * Z.of_nat (length l).
Proof.
  intros Hp. revert s; induction l as [|x l IH]; intros s; simpl fold_left.
  - simpl. lia.
  - specialize (IH (addIf (f x) p s)).
    pose proof (addIf_bounds (f x) p s Hp).
    change (length (x :: l)) with (S (length l)). lia.
Qed.

Lemma themeScore_bounds (t text : string) (s : Z) :
  s <= themeScore t text s <= s + 270.
Proof.
  unfold themeScore. destruct (String.eqb t "all themes"); [lia|].
  pose proof (fold_addIf_bounds
                (fun bucket => Js.includes t (fst bucket) && anyOf text (snd bucket))
                30 themeBuckets s) as H.
  simpl length in H. lia.
Qed.

Lemma seasonalScore_bounds (m text : string) (s : Z) :
  s <= seasonalScore m text s <= s + 5.
Proof.
  unfold seasonalScore. cbn [fold_left seasonalMonths fst snd].
  destruct (String.eqb_spec m "january") as [->|_];
    [|destruct (String.eqb_spec m "february") as [->|_];
      [|destruct (String.eqb_spec m "october") as [->|_]]];
    cbn [String.eqb Ascii.eqb Bool.eqb andb]; unfold addIf;
    repeat match goal with |- context [if ?b then _ else _] => destruct b end; lia.
Qed.

Lemma queryScore_bounds (book : RawBook) (text q : string) :
  0 <= queryScore book text q <= 110.
Proof.
  unfold queryScore, addIf.
  repeat match goal with |- context [if ?b then _ else _] => destruct b end; lia.
Qed.

Lemma queryScore_no_match (book : RawBook) (q : string) :
  Js.includes (searchableText book) q = false ->
  queryScore book (searchableText book) q = 0.
Proof.
  intros H. unfold queryScore. rewrite H. simpl addIf at 1.
  assert (Ht : Js.includes (Js.toLowerCase (title book)) q = false).
  { destruct (Js.includes (Js.toLowerCase (title book)) q) eqn:E; [|reflexivity].
    rewrite <- H. unfold searchableText. rewrite toLowerCase_app.
    symmetry. now apply includes_app_l. }
  assert (Ha : Js.includes (Js.toLowerCase (author book)) q = false).
  { destruct (Js.includes (Js.toLowerCase (author book)) q) eqn:E; [|reflexivity].
    rewrite <- H. unfold searchableText. rewrite !toLowerCase_app.
    symmetry. apply includes_app_r, includes_app_r. now apply includes_app_l. }
  now rewrite Ht, Ha.
Qed.

Lemma bonuses_nonneg (m t text : string) (s : Z) :
  s <= seasonalScore m text (themeScore t text s) <= s + 275.
Proof.
  pose proof (themeScore_bounds t text s).
  pose proof (seasonalScore_bounds m text (themeScore t text s)). lia.
Qed.

Lemma getRelevancyScore_range (book : RawBook) (month theme : string) (query : option string) :
  getRelevancyScore book month theme query = -100 \/
  0 <= getRelevancyScore book month theme query <= 385.
Proof.
  unfold getRelevancyScore.
  set (m := Js.toLowerCase month). set (t := Js.toLowerCase theme).
  set (text := searchableText book).
  pose proof (bonuses_nonneg m t text 0) as H0.
  destruct query as [q|]; [|right; lia].
  destruct (queryActive (Some q)); [|right; lia].
  pose proof (queryScore_bounds book text (normalizedQuery q)) as Hq.
  pose proof (bonuses_nonneg m t text (queryScore book text (normalizedQuery q))) as H1.
  cbv zeta. destruct (_ <? 20); [now left | right; lia].
Qed.

(** ** Relevance scorer *)




(** C9, as stated, fails: no input scores above 385. *)
Lemma score_has_upper_bound :
  ~ (forall B : Z, exists book month theme query,
        B < getRelevancyScore book month theme query).
Proof.
  intros H. destruct (H 385) as (book & month & theme & query & Hlt).
  destruct (getRelevancyScore_range book month theme query); lia.
Qed.

(** C9, amended: the contributions are additive and the score is bounded
    above by 385 (110 for the query, 270 for the nine theme buckets, 5 for
    the season); the bound is reached. *)
Theorem score_at_most_385 :
  (forall book month theme query, getRelevancyScore book month theme query <= 385) /\
  getRelevancyScore everything "December" everyTheme (Some "a") = 385.
Proof.
  split; [|reflexivity].
  intros book month theme query.
  destruct (getRelevancyScore_range book month theme query); lia.
Qed.

(** ** Candidate selection without a query *)

Lemma score_nonneg_without_query
    (book : RawBook) (month theme : string) (query : option string) :
  queryActive query = false -> 0 <= getRelevancyScore book month theme query.
Proof.
  intros Hq. unfold getRelevancyScore.
  pose proof (bonuses_nonneg (Js.toLowerCase month) (Js.toLowerCase theme)
                (searchableText book) 0).
  destruct query as [q|]; [rewrite Hq|]; cbv zeta; lia.
Qed.

Lemma scoreCandidates_keeps_all
    (month theme : string) (query : option string) (candidates : list RawBook) :
  queryActive query = false ->
  forall random : nat -> Q,
    (forall i, 0 <= random i < 1)%Q ->
    map candidate (scoreCandidates random month theme query candidates) = candidates.
Proof.
  intros Hq. unfold scoreCandidates.
  induction candidates as [|b l IH]; intros random Hr; [reflexivity|].
  cbn [imap List.filter candidate score].
  pose proof (score_nonneg_without_query b month theme query Hq) as Hs.
  assert (Hkeep : Qle_bool (inject_Z (getRelevancyScore b month theme query) + random 0%nat) (-5) = false).
  { apply not_true_is_false. rewrite Qle_bool_iff.
    pose proof (Hr 0%nat) as [H0 _].
    assert (0 <= inject_Z (getRelevancyScore b month theme query))%Q.
    { change 0%Q with (inject_Z 0). now rewrite <- Zle_Qle. }
    lra. }
  rewrite Hkeep. cbn [negb map candidate]. f_equal.
  apply (IH (fun i => random (S i))). intros i. apply Hr.
Qed.

Lemma scoreCandidates_drops_only_sentinel
    (month theme : string) (query : option string) (candidates : list RawBook) :
  forall random : nat -> Q,
    (forall i, 0 <= random i < 1)%Q ->
    map candidate (scoreCandidates random month theme query candidates)
    = List.filter (fun b => negb (getRelevancyScore b month theme query =? -100)) candidates.
Proof.
  unfold scoreCandidates.
  induction candidates as [|b l IH]; intros random Hr; [reflexivity|].
  cbn [imap List.filter candidate score].
  specialize (IH (fun i => random (S i)) (fun i => Hr (S i))).
  destruct (Hr 0%nat) as [H0 H1].
  destruct (getRelevancyScore_range b month theme query) as [E|[Hs _]].
  - assert (Hdrop : Qle_bool (inject_Z (getRelevancyScore b month theme query)
                                + random 0%nat) (-5) = true).
    { apply Qle_bool_iff. rewrite E. unfold inject_Z. lra. }
    rewrite Hdrop, E. cbn [negb Z.eqb Pos.eqb]. exact IH.
  - assert (Hkeep : Qle_bool (inject_Z (getRelevancyScore b month theme query)
                                + random 0%nat) (-5) = false).
    { apply not_true_is_false. rewrite Qle_bool_iff.
      assert (0 <= inject_Z (getRelevancyScore b month theme query))%Q.
      { change 0%Q with (inject_Z 0). now rewrite <- Zle_Qle. }
      lra. }
    assert (Hne : (getRelevancyScore b month theme query =? -100) = false)
      by (apply Z.eqb_neq; lia).
    rewrite Hkeep, Hne. cbn [negb map candidate]. f_equal. exact IH.
Qed.

(** C10: without an active query the score is never negative, so, the jitter
    lying in [0,1), the filter [score > -5] of the candidate selector keeps
    every candidate; for any query the selector keeps exactly the candidates
    whose score is not the sentinel -100, in their order, so a candidate is
    discarded only when its score is -100. *)
Theorem no_query_keeps_every_candidate :
  (forall book month theme query,
      queryActive query = false -> 0 <= getRelevancyScore book month theme query) /\
  (forall random month theme query candidates,
      queryActive query = false ->
      (forall i, 0 <= random i < 1)%Q ->
      map candidate (scoreCandidates random month theme query candidates) = candidates) /\
  (forall random month theme query candidates,
      (forall i, 0 <= random i < 1)%Q ->
      map candidate (scoreCandidates random month theme query candidates)
      = List.filter (fun b => negb (getRelevancyScore b month theme query =? -100))
          candidates) /\
  (forall random month theme query candidates book,
      (forall i, 0 <= random i < 1)%Q ->
      book ∈ candidates ->
      book ∉ map candidate (scoreCandidates random month theme query candidates) ->
      getRelevancyScore book month theme query = -100) /\
  (forall book month theme query (jitter : Q),
      (0 <= jitter < 1)%Q ->
      negb (Qle_bool (inject_Z (getRelevancyScore book month theme query) + jitter) (-5)) = false ->
      getRelevancyScore book month theme query = -100).
Proof.
  split; [|split; [|split; [|split]]].
  - intros. now apply score_nonneg_without_query.
  - intros. now apply scoreCandidates_keeps_all.
  - intros. now apply scoreCandidates_drops_only_sentinel.
  - intros random month theme query candidates book Hr Hin Hout.
    rewrite (scoreCandidates_drops_only_sentinel month theme query candidates random Hr)
      in Hout.
    destruct (Z.eqb_spec (getRelevancyScore book month theme query) (-100)) as [E|Hne];
      [exact E|].
    exfalso. apply Hout. rewrite list_elem_of_In, filter_In, <- list_elem_of_In.
    split; [exact Hin|]. apply negb_true_iff. now apply Z.eqb_neq.
  - intros book month theme query jitter [Hj _] Hdrop.
    apply negb_false_iff in Hdrop. rewrite Qle_bool_iff in Hdrop.
    destruct (getRelevancyScore_range book month theme query) as [E|[H0 _]]; [exact E|].
    exfalso.
    assert (0 <= inject_Z (getRelevancyScore book month theme query))%Q.
    { change 0%Q with (inject_Z 0). now rewrite <- Zle_Qle. }
    lra.
Qed.

Lemma no_query_keeps_every_candidate_witness :
  0 <= getRelevancyScore charlotte "March" "Animals" (Some "   ") /\
  map candidate (scoreCandidates (fun _ => 0.5%Q) "March" "Animals" None [charlotte; everything])
    = [charlotte; everything] /\
  map candidate (scoreCandidates (fun _ => 0.5%Q) "March" "Animals" (Some "web")
                   [charlotte; everything])
    = List.filter (fun b => negb (getRelevancyScore b "March" "Animals" (Some "web") =? -100))
        [charlotte; everything] /\
  getRelevancyScore everything "March" "Animals" (Some "web") = -100.
Proof.
  destruct no_query_keeps_every_candidate as (Hscore & Hkeep & Hfilter & Hdropped & _).
  assert (Hjitter : forall i : nat, (0 <= (fun _ : nat => 0.5) i < 1)%Q)
    by (intros _; unfold Qle, Qlt; simpl; lia).
  split; [|split; [|split]].
  - apply Hscore. reflexivity.
  - apply Hkeep; [reflexivity | exact Hjitter].
  - apply Hfilter. exact Hjitter.
  - apply (Hdropped (fun _ => 0.5%Q) "March" "Animals" (Some "web") [charlotte; everything]).
    + exact Hjitter.
    + right; left.
    + vm_compute. intros H.
      apply elem_of_cons in H as [H|H]; [discriminate|]. now apply elem_of_nil in H.
Defined.

(** ** Category split *)

(** C1, as stated, fails: 11 is odd, and the split asks for 5 "Must Read"
    and 6 "Recommended" entries. *)
Lemma odd_split_favours_recommended :
  Z.odd 11 = true /\
  categorySplit 11 = (5, 6) /\
  ~ (snd (categorySplit 11) < fst (categorySplit 11)).
Proof. vm_compute. repeat split; discriminate. Qed.

(** C1, amended: for every requested count N the split is
    mustRead = max(5, floor(N/2)) and recommended = N - mustRead, and these
    are the counts the prompt carries; "Must Read" is strictly the larger
    part exactly when N <= 9, and for every odd N >= 11 "Recommended" is the
    larger part, by one. *)
Theorem category_split (limit : Z) :
  categorySplit limit = (Z.max 5 (limit / 2), limit - Z.max 5 (limit / 2)) /\
  (forall top grade month theme query,
      mustReadCount (buildPrompt top grade month theme limit query) = Z.max 5 (limit / 2) /\
      recommendedCount (buildPrompt top grade month theme limit query)
        = limit - Z.max 5 (limit / 2)) /\
  (snd (categorySplit limit) < fst (categorySplit limit) <-> limit <= 9) /\
  (Z.odd limit = true -> 11 <= limit ->
   snd (categorySplit limit) = fst (categorySplit limit) + 1).
Proof.
  split; [reflexivity|]. split; [intros; split; reflexivity|].
  unfold categorySplit. cbn [fst snd]. split.
  - Z.div_mod_to_equations. lia.
  - intros Hodd Hge. apply Z.odd_spec in Hodd as [k ->].
    Z.div_mod_to_equations. lia.
Qed.

Lemma category_split_witness :
  snd (categorySplit 15) = fst (categorySplit 15) + 1.
Proof. apply (category_split 15); [reflexivity | lia]. Defined.

(** ** Cache key *)

(** C3, as stated, fails: an absent query and the query "none" differ, all
    other fields being equal, and give the same key; so does the empty
    query. *)
Lemma absent_and_none_query_share_key :
  (None : option string) <> Some "none" /\
  cacheKey "3rd Grade" "March" "Animals" 10 None
    = cacheKey "3rd Grade" "March" "Animals" 10 (Some "none") /\
  cacheKey "3rd Grade" "March" "Animals" 10 None
    = cacheKey "3rd Grade" "March" "Animals" 10 (Some "").
Proof. repeat split; discriminate. Qed.

(** C3, amended: requests that agree on the five fields have the same key;
    requests that differ only in the grade, only in the theme, only in the
    month or only in the count have different keys; requests that differ
    only in the query have different keys unless both queries are among
    absent, empty and "none" (the key holds [query || 'none']). *)
Theorem cacheKey_determinism (grade month theme : string) (limit : Z) (query : option string) :
  (forall grade' month' theme' limit' query',
      grade = grade' -> month = month' -> theme = theme' -> limit = limit' ->
      query = query' ->
      cacheKey grade month theme limit query = cacheKey grade' month' theme' limit' query') /\
  (forall grade', grade <> grade' ->
      cacheKey grade month theme limit query <> cacheKey grade' month theme limit query) /\
  (forall theme', theme <> theme' ->
      cacheKey grade month theme limit query <> cacheKey grade month theme' limit query) /\
  (forall month', month <> month' ->
      cacheKey grade month theme limit query <> cacheKey grade month' theme limit query) /\
  (forall limit', limit <> limit' ->
      cacheKey grade month theme limit query <> cacheKey grade month theme limit' query) /\
  (forall query',
      cacheKey grade month theme limit query = cacheKey grade month theme limit query' <->
      Js.orElse query "none" = Js.orElse query' "none").
Proof.
  split; [now intros; subst|].
  unfold cacheKey.
  repeat split.
  - intros grade' Hne H. apply Hne.
    apply String.app_inj in H. now apply string_app_inv_tail in H.
  - intros theme' Hne H. apply Hne.
    do 3 apply String.app_inj in H. now apply string_app_inv_tail in H.
  - intros month' Hne H. apply Hne.
    do 5 apply String.app_inj in H. now apply string_app_inv_tail in H.
  - intros limit' Hne H. apply Hne.
    do 7 apply String.app_inj in H. apply string_app_inv_tail in H.
    now apply (inj pretty) in H.
  - intros H. repeat apply String.app_inj in H. exact H.
  - now intros ->.
Qed.

Lemma cacheKey_determinism_witness :
  cacheKey "3rd Grade" "March" "Animals" 10 None
    <> cacheKey "3rd Grade" "March" "Animals" 11 None.
Proof.
  destruct (cacheKey_determinism "3rd Grade" "March" "Animals" 10 None)
    as (_ & _ & _ & _ & Hlimit & _).
  apply Hlimit. lia.
Defined.

(** ** Catalog loader *)

Lemma spanDigits_digit (c : ascii) (r : string) :
  isDigit c = true -> Js.isEmpty (fst (spanDigits (String c r))) = false.
Proof. intros H. simpl. rewrite H. now destruct (spanDigits r). Qed.

Lemma spanDigits_nondigit (c : ascii) (r : string) :
  isDigit c = false -> spanDigits (String c r) = (EmptyString, String c r).
Proof. intros H. simpl. now rewrite H. Qed.

Lemma parseFloat_isNaN (s : string) : isNaN (parseFloat s) = negb (startsNumeral s).
Proof.
  unfold parseFloat, startsNumeral.
  destruct (stripSign (Js.trimStart s)) as [neg r].
  destruct (Js.startsWith r "Infinity"); [reflexivity|].
  rewrite orb_false_l.
  destruct r as [|c r']; [reflexivity|].
  destruct (isDigit c) eqn:Hc.
  - pose proof (spanDigits_digit c r' Hc) as Hip.
    destruct (spanDigits (String c r')) as [ip r1]. simpl in Hip.
    match goal with |- context [let (fp, r2) := ?e in _] => destruct e as [fp r2] end.
    rewrite Hip. simpl. now destruct (overflows _ _).
  - rewrite (spanDigits_nondigit c r' Hc). rewrite orb_false_l.
    destruct (Ascii.eqb c "."); [|reflexivity].
    destruct r' as [|d r'']; [reflexivity|].
    destruct (isDigit d) eqn:Hd.
    + pose proof (spanDigits_digit d r'' Hd) as Hfp.
      destruct (spanDigits (String d r'')) as [fp r2]. simpl in Hfp.
      rewrite Hfp. simpl. now destruct (overflows _ _).
    + now rewrite (spanDigits_nondigit d r'' Hd).
Qed.

Lemma parseLine_Some (line : string) :
  is_Some (parseLine line) <->
  (8 <= length (Js.split Js.tab line))%nat /\
  isNaN (parseFloat (col 7 (Js.split Js.tab line))) = false.
Proof.
  unfold parseLine.
  destruct (Nat.ltb_spec (length (Js.split Js.tab line)) 8) as [Hlt|Hge].
  - split; [intros [b Hb]; discriminate | lia].
  - destruct (isNaN (parseFloat (col 7 (Js.split Js.tab line)))).
    + split; [intros [b Hb]; discriminate | intros [_ H]; discriminate].
    + split; [now split | intros _; eexists; reflexivity].
Qed.

Lemma parseLine_bl (line : string) (book : RawBook) :
  parseLine line = Some book -> isNaN (bl book) = false.
Proof.
  unfold parseLine.
  destruct (_ <? _)%nat; [discriminate|].
  destruct (isNaN (parseFloat _)) eqn:E; [discriminate|].
  now intros [= <-].
Qed.

(** C4, as stated, fails: a row of eight columns whose eighth column is
    [Infinity] is kept, with a level that is not finite. *)
Lemma infinite_level_row_is_kept :
  length (Js.split Js.tab infinityRow) = 8%nat /\
  isFinite (parseFloat (col 7 (Js.split Js.tab infinityRow))) = false /\
  parseBookData infinityRow = [infinityBook] /\
  isFinite (bl infinityBook) = false.
Proof. vm_compute. repeat split. Qed.

(** C4, amended: a line of the trimmed dataset is kept if and only if it has
    at least 8 tab-separated columns and [parseFloat] of its 8th column is not
    NaN, that is, the column starts (after white space and an optional sign)
    with [Infinity], a digit, or a dot and a digit; other lines are skipped;
    the catalog is the kept lines in order, and every entry of it has a
    level that is not NaN. *)
Theorem catalog_keeps_numeric_rows :
  (forall line,
      is_Some (parseLine line) <->
      (8 <= length (Js.split Js.tab line))%nat /\
      isNaN (parseFloat (col 7 (Js.split Js.tab line))) = false) /\
  (forall column, isNaN (parseFloat column) = false <-> startsNumeral column = true) /\
  (forall tsvData, parseBookData tsvData = omap parseLine (datasetLines tsvData)) /\
  (forall tsvData book,
      book ∈ parseBookData tsvData <->
      exists line, line ∈ datasetLines tsvData /\ parseLine line = Some book) /\
  (forall tsvData book, book ∈ parseBookData tsvData -> isNaN (bl book) = false).
Proof.
  split; [|split; [|split; [reflexivity|split]]].
  - exact parseLine_Some.
  - intros column. now rewrite parseFloat_isNaN, negb_false_iff.
  - intros tsvData book. unfold parseBookData. apply list_elem_of_omap.
  - intros tsvData book H. unfold parseBookData in H.
    apply list_elem_of_omap in H as (line & _ & Hline).
    now apply parseLine_bl in Hline.
Qed.

Lemma catalog_keeps_numeric_rows_witness :
  isNaN (bl infinityBook) = false.
Proof.
  destruct catalog_keeps_numeric_rows as (_ & _ & _ & _ & Hbl).
  apply (Hbl infinityRow). vm_compute. left.
Defined.

(** ** Recommendation cache writes *)

Section CacheWrites.

Variable Book : Type.
Variable JSON_parse : string -> option (RecommendationResult Book).
Variable JSON_stringify : RecommendationResult Book -> string.
Variable RAW_BOOK_DATABASE_TSV : string.
Variable withinWidenedRange : jsnum -> Q -> Q -> bool.

Lemma readCache_writes_nothing (key : string) (st st' : Storage)
    (hit : option (RecommendationResult Book)) :
  readCache Book JSON_parse key st = (hit, st') ->
  setItemCalls st' = setItemCalls st /\ items st' ⊆ items st.
Proof.
  unfold readCache. destruct (getItem key st) as [cachedData|].
  - destruct (Js.isEmpty cachedData); [now intros [= <- <-]|].
    destruct (JSON_parse cachedData); intros [= <- <-]; [done|].
    split; [reflexivity | apply delete_subseteq].
  - now intros [= <- <-].
Qed.

(** C7: a result whose book list is empty (or missing) is never written to
    the cache, and nothing is stored on that path; a [setItem] call is made
    only for a returned result with at least one book, once, under the
    request's cache key. *)
Theorem cache_write_guard
    (API_KEY : option string) (random : nat -> Q) (generateContent : Prompt -> response)
    (st st' : Storage) (grade month theme : string) (limit : Z) (query : option string)
    (out : outcome (RecommendationResult Book)) :
  generateBookRecommendations Book JSON_parse JSON_stringify RAW_BOOK_DATABASE_TSV
    withinWidenedRange API_KEY random generateContent st grade month theme limit query
    = (out, st') ->
  (forall result, out = Returned result -> hasBooks result = false ->
      setItemCalls st' = setItemCalls st /\ items st' ⊆ items st) /\
  (setItemCalls st' <> setItemCalls st ->
      exists result,
        out = Returned result /\ hasBooks result = true /\
        setItemCalls st' = setItemCalls st
          ++ [(cacheKey grade month theme limit query, JSON_stringify result)]).
Proof.
  unfold generateBookRecommendations.
  destruct (readCache _ _ _ st) as [hit st1] eqn:Hread.
  apply readCache_writes_nothing in Hread as [Hcalls Hitems].
  assert (Hquiet : forall o : outcome (RecommendationResult Book),
             (o, st1) = (out, st') ->
             (forall result, out = Returned result -> hasBooks result = false ->
                 setItemCalls st' = setItemCalls st /\ items st' ⊆ items st) /\
             (setItemCalls st' <> setItemCalls st ->
                 exists result,
                   out = Returned result /\ hasBooks result = true /\
                   setItemCalls st' = setItemCalls st
                     ++ [(cacheKey grade month theme limit query, JSON_stringify result)])).
  { intros o [= <- <-]. split; [now intros | intros Hne; now destruct Hne]. }
  destruct hit as [cached|]; [apply Hquiet|].
  destruct (negb (Js.truthy API_KEY)); [apply Hquiet|].
  destruct (Js.truthy query && _); [apply Hquiet|].
  destruct (generateContent _) as [|text]; [apply Hquiet|].
  destruct (JSON_parse _) as [result|]; [|apply Hquiet].
  destruct (hasBooks result) eqn:Hbooks; [|apply Hquiet].
  intros [= <- <-]. split.
  - intros result' [= <-] Hempty. congruence.
  - intros _. exists result. repeat split; [exact Hbooks|].
    cbn [setItem setItemCalls]. now rewrite Hcalls.
Qed.

End CacheWrites.

(** ** Cover-match verification *)

(** C6, as stated, fails: with the credential missing, the error is thrown
    to the caller. *)
Lemma missing_credential_is_thrown :
  verifyBookCoverMatch sampleVerdictParse None (fun _ => Rejected)
      "data:image/jpeg;base64,AAAA" "Charlotte's Web" "E.B. White"
    = Thrown (Error "API Key is missing.") /\
  forall verdict : Verdict,
    verifyBookCoverMatch sampleVerdictParse None (fun _ => Rejected)
      "data:image/jpeg;base64,AAAA" "Charlotte's Web" "E.B. White"
    <> Returned verdict.
Proof. split; [reflexivity | discriminate]. Qed.

Section VerificationProperties.

Variable JSON_parse : string -> option Verdict.

(** C6, amended: with the credential present, the operation never throws,
    and whenever the service call is rejected or its response does not
    parse, the verdict is [{isMatch: false}] with the generic failure
    reason; with the credential missing (undefined or empty), the error
    "API Key is missing." is thrown to the caller. *)
Theorem verification_fails_closed
    (API_KEY : option string) (generateContent : ImageRequest -> response)
    (base64Image title author : string) :
  (Js.truthy API_KEY = true ->
     (exists verdict,
         verifyBookCoverMatch JSON_parse API_KEY generateContent base64Image title author
           = Returned verdict) /\
     (generateContent (verificationRequest base64Image title author) = Rejected ->
         verifyBookCoverMatch JSON_parse API_KEY generateContent base64Image title author
           = Returned verificationFailed) /\
     (forall text,
         generateContent (verificationRequest base64Image title author) = Response text ->
         JSON_parse (Js.orElse text noResponseText) = None ->
         verifyBookCoverMatch JSON_parse API_KEY generateContent base64Image title author
           = Returned verificationFailed)) /\
  (Js.truthy API_KEY = false ->
     verifyBookCoverMatch JSON_parse API_KEY generateContent base64Image title author
       = Thrown (Error "API Key is missing.")).
Proof.
  unfold verifyBookCoverMatch. split; intros ->; [|reflexivity].
  cbn [negb].
  destruct (generateContent _) as [|text].
  - split; [now eexists|]. split; [reflexivity | discriminate].
  - destruct (JSON_parse _) as [verdict|] eqn:Hparse.
    + split; [now eexists|]. split; [discriminate|].
      intros text' [= <-] Hnone. congruence.
    + split; [now eexists|]. split; reflexivity.
Qed.

End VerificationProperties.

Lemma verification_fails_closed_witness :
  verifyBookCoverMatch sampleVerdictParse (Some "secret") (fun _ => Rejected)
      "data:image/jpeg;base64,AAAA" "Charlotte's Web" "E.B. White"
    = Returned verificationFailed.
Proof.
  destruct (verification_fails_closed sampleVerdictParse (Some "secret") (fun _ => Rejected)
              "data:image/jpeg;base64,AAAA" "Charlotte's Web" "E.B. White") as [Hkey _].
  destruct (Hkey eq_refl) as (_ & Hrejected & _).
  apply Hrejected. reflexivity.
Defined.

Lemma cache_write_guard_witness :
  let run :=
    generateBookRecommendations string sampleParse sampleStringify infinityRow
      (fun _ _ _ => true) (Some "secret") (fun _ => 0.5%Q) (fun _ => Response None)
      emptyStorage "3rd Grade" "March" "Animals" 10 None in
  setItemCalls (snd run) = setItemCalls emptyStorage /\
  items (snd run) ⊆ items emptyStorage.
Proof.
  intros run.
  eapply (cache_write_guard string sampleParse sampleStringify infinityRow
            (fun _ _ _ => true) (Some "secret") (fun _ => 0.5%Q) (fun _ => Response None)
            emptyStorage (snd run) "3rd Grade" "March" "Animals" 10 None (fst run)).
  - vm_compute. reflexivity.
  - vm_compute. reflexivity.
  - reflexivity.
Defined.

(** ** Cover race *)

Module CoverFacts.
Import Cover.

Lemma onLookup_fails (l : lookup) (r : Race) :
  lookupFails l = true -> onLookup l r = checkFailure r.
Proof.
  destruct l as [url|]; [|reflexivity]. simpl.
  now intros ->%negb_true_iff.
Qed.

Lemma onLookup_yields (l : lookup) (u : string) (r : Race) :
  lookupYields l u -> onLookup l r = resolve (Some (getProxiedUrl u)) r.
Proof. intros [-> Hu]. simpl. now rewrite Hu. Qed.

Lemma race_both_fail (googleBooks openLibrary : lookup) (googleFirst : bool) :
  lookupFails googleBooks = true -> lookupFails openLibrary = true ->
  race googleBooks openLibrary googleFirst = {| failures := 2; settled := Some None |}.
Proof.
  intros Hg Ho. unfold race.
  destruct googleFirst; now rewrite !onLookup_fails.
Qed.

Lemma race_one_yields (winner loser : lookup) (u : string) :
  lookupYields winner u -> lookupFails loser = true ->
  settled (onLookup loser (onLookup winner newRace)) = Some (Some (getProxiedUrl u)) /\
  settled (onLookup winner (onLookup loser newRace)) = Some (Some (getProxiedUrl u)).
Proof.
  intros Hw Hl.
  rewrite !(onLookup_fails loser), !(onLookup_yields winner u) by assumption.
  split; reflexivity.
Qed.

Lemma race_settles (googleBooks openLibrary : lookup) (googleFirst : bool) :
  exists v, settled (race googleBooks openLibrary googleFirst) = Some v.
Proof.
  unfold race, onLookup.
  destruct googleFirst, googleBooks as [g|], openLibrary as [o|];
    try destruct (Js.truthy g); try destruct (Js.truthy o); now eexists.
Qed.

(** The state when both lookups of a fresh race have settled. *)
Lemma settled_state (key : string) (googleBooks openLibrary : lookup)
    (googleFirst : bool) (st : State) :
  promiseCache st !! key = None ->
  let st1 := loadCover key st in
  let st2 :=
    if googleFirst
    then lookupSettles key openLibrary (lookupSettles key googleBooks st1)
    else lookupSettles key googleBooks (lookupSettles key openLibrary st1) in
  promiseCache st2 !! key = Some (race googleBooks openLibrary googleFirst) /\
  coverCache st2 = coverCache st /\
  issued st2 = issued st ++ [(key, GoogleBooks); (key, OpenLibrary)].
Proof.
  intros Hfresh. unfold loadCover, race. rewrite Hfresh.
  destruct googleFirst; cbn [lookupSettles promiseCache coverCache issued];
    rewrite !lookup_alter_eq, lookup_insert_eq; now cbn.
Qed.

Lemma resolveCover_fresh (key : string) (googleBooks openLibrary : lookup)
    (googleFirst isMounted : bool) (st : State) (v : option string) :
  coverCache st !! key = None ->
  promiseCache st !! key = None ->
  settled (race googleBooks openLibrary googleFirst) = Some v ->
  exists st',
    resolveCover key googleBooks openLibrary googleFirst isMounted st = Some (st', v) /\
    promiseCache st' !! key = Some (race googleBooks openLibrary googleFirst) /\
    issued st' = issued st ++ [(key, GoogleBooks); (key, OpenLibrary)] /\
    (coverCache st' = coverCache st \/
     isMounted = true /\ exists url, v = Some url /\ Js.isEmpty url = false /\
       coverCache st' = <[key := url]> (coverCache st)).
Proof.
  intros Hcover Hfresh Hsettled. unfold resolveCover. rewrite Hcover, Hfresh.
  destruct (settled_state key googleBooks openLibrary googleFirst st Hfresh)
    as (Hrace & Hcc & Hissued).
  cbv zeta in Hrace, Hcc, Hissued.
  set (st2 := if googleFirst then _ else _) in *.
  unfold resume. rewrite Hrace.
  destruct (race googleBooks openLibrary googleFirst) as [n s] eqn:Er.
  simpl in Hsettled. subst s.
  destruct (isMounted && Js.truthy v) eqn:Hset.
  - eexists. split; [reflexivity|]. cbn [promiseCache issued coverCache].
    apply andb_true_iff in Hset as [-> Hv].
    repeat split; [exact Hrace | exact Hissued |]. right. split; [reflexivity|].
    destruct v as [url|]; [|discriminate]. simpl in Hv.
    exists url. apply negb_true_iff in Hv. rewrite Hcc. simpl. now rewrite Hv.
  - exists st2. repeat split; [exact Hrace | exact Hissued | now left].
Qed.

End CoverFacts.

(** C8, as stated, fails: when the only lookup that yields a URL yields a
    [data:] URL, the race resolves to that URL unchanged, not to its proxied
    form. *)
Lemma data_url_is_not_proxied :
  Cover.lookupYields (Cover.Fulfilled (Some "data:image/png;base64,AAAA"))
    "data:image/png;base64,AAAA" /\
  Cover.lookupFails Cover.Failed = true /\
  Cover.settled (Cover.race (Cover.Fulfilled (Some "data:image/png;base64,AAAA")) Cover.Failed true)
    = Some (Some "data:image/png;base64,AAAA") /\
  Cover.settled (Cover.race (Cover.Fulfilled (Some "data:image/png;base64,AAAA")) Cover.Failed true)
    <> Some (Some (Cover.proxied "data:image/png;base64,AAAA")).
Proof. repeat split; vm_compute; discriminate. Qed.

(** C8, amended: if both lookups fail (rejected, or no usable URL), the race
    resolves to absent; if exactly one lookup yields a URL, the race resolves
    to [getProxiedUrl] of that URL, whichever source produced it and in
    whichever order the lookups settle: the proxied form (protocol stripped,
    image-proxy endpoint, width 400, webp), except that a URL starting with
    [data:] is returned unchanged.  A resolution for a key in neither cache
    returns the value the race resolved to. *)
Theorem cover_race_composition
    (googleBooks openLibrary : Cover.lookup) (googleFirst : bool) :
  (Cover.lookupFails googleBooks = true -> Cover.lookupFails openLibrary = true ->
     Cover.settled (Cover.race googleBooks openLibrary googleFirst) = Some None) /\
  (forall u, Cover.lookupYields googleBooks u -> Cover.lookupFails openLibrary = true ->
     Cover.settled (Cover.race googleBooks openLibrary googleFirst)
       = Some (Some (Cover.getProxiedUrl u))) /\
  (forall u, Cover.lookupFails googleBooks = true -> Cover.lookupYields openLibrary u ->
     Cover.settled (Cover.race googleBooks openLibrary googleFirst)
       = Some (Some (Cover.getProxiedUrl u))) /\
  (forall u,
     Cover.getProxiedUrl u =
       if Js.startsWith u "data:" then u
       else "https://wsrv.nl/?url=" +:+ Cover.encodeURIComponent (Cover.stripProtocol u)
              +:+ "&w=400&output=webp") /\
  (forall key isMounted st v,
     Cover.coverCache st !! key = None -> Cover.promiseCache st !! key = None ->
     Cover.settled (Cover.race googleBooks openLibrary googleFirst) = Some v ->
     snd <$> Cover.resolveCover key googleBooks openLibrary googleFirst isMounted st = Some v).
Proof.
  split; [|split; [|split; [|split]]].
  - intros Hg Ho. now rewrite CoverFacts.race_both_fail.
  - intros u Hg Ho. unfold Cover.race.
    destruct (CoverFacts.race_one_yields googleBooks openLibrary u Hg Ho).
    now destruct googleFirst.
  - intros u Hg Ho. unfold Cover.race.
    destruct (CoverFacts.race_one_yields openLibrary googleBooks u Ho Hg).
    now destruct googleFirst.
  - reflexivity.
  - intros key isMounted st v Hcover Hfresh Hsettled.
    destruct (CoverFacts.resolveCover_fresh key googleBooks openLibrary googleFirst
                isMounted st v Hcover Hfresh Hsettled) as (st' & -> & _).
    reflexivity.
Qed.

Lemma cover_race_composition_witness :
  Cover.settled (Cover.race Cover.Failed (Cover.Fulfilled (Some "https://covers.openlibrary.org/b/id/42-L.jpg")) true)
    = Some (Some (Cover.getProxiedUrl "https://covers.openlibrary.org/b/id/42-L.jpg")).
Proof.
  apply (cover_race_composition Cover.Failed
           (Cover.Fulfilled (Some "https://covers.openlibrary.org/b/id/42-L.jpg")) true).
  - reflexivity.
  - split; reflexivity.
Defined.

(** C2, as stated, fails: after a resolution for "T-A" in which both lookups
    failed, a second resolution for "T-A" issues no lookup (the log and the
    whole state are unchanged) and returns the memoized absent result, even
    though both sources would now yield a cover. *)
Lemma failed_cover_is_not_retried :
  Cover.resolveCover "T-A" Cover.Failed Cover.Failed true true Cover.initial
    = Some (failedOnce, None) /\
  Cover.loadCover "T-A" failedOnce = failedOnce /\
  Cover.resolveCover "T-A"
      (Cover.Fulfilled (Some "http://books.google.com/books/content?id=1"))
      (Cover.Fulfilled (Some "https://covers.openlibrary.org/b/id/42-L.jpg"))
      true true failedOnce
    = Some (failedOnce, None) /\
  Cover.issued failedOnce = [("T-A", Cover.GoogleBooks); ("T-A", Cover.OpenLibrary)].
Proof. repeat split. Qed.

(** C2, amended: after a resolution for a key in neither cache completes
    with both lookups failed, the absent result is not stored in
    [coverCache], but the settled race stays in [promiseCache]; every later
    resolution for that key returns the memoized absent result and issues no
    lookup. *)
Theorem absent_result_is_memoized
    (key : string) (googleBooks openLibrary : Cover.lookup)
    (googleFirst isMounted : bool) (st : Cover.State) :
  Cover.coverCache st !! key = None ->
  Cover.promiseCache st !! key = None ->
  Cover.lookupFails googleBooks = true ->
  Cover.lookupFails openLibrary = true ->
  exists st',
    Cover.resolveCover key googleBooks openLibrary googleFirst isMounted st = Some (st', None) /\
    Cover.coverCache st' !! key = None /\
    Cover.promiseCache st' !! key
      = Some {| Cover.failures := 2; Cover.settled := Some None |} /\
    Cover.issued st' = Cover.issued st ++ [(key, Cover.GoogleBooks); (key, Cover.OpenLibrary)] /\
    Cover.loadCover key st' = st' /\
    forall googleBooks' openLibrary' googleFirst' isMounted',
      Cover.resolveCover key googleBooks' openLibrary' googleFirst' isMounted' st'
        = Some (st', None).
Proof.
  intros Hcover Hfresh Hg Ho.
  pose proof (CoverFacts.race_both_fail googleBooks openLibrary googleFirst Hg Ho) as Hrace.
  destruct (CoverFacts.resolveCover_fresh key googleBooks openLibrary googleFirst
              isMounted st None Hcover Hfresh) as (st' & Hrun & Hpromise & Hissued & Hcc).
  { now rewrite Hrace. }
  rewrite Hrace in Hpromise.
  assert (Hcover' : Cover.coverCache st' !! key = None).
  { destruct Hcc as [-> | (_ & url & [=] & _)]. exact Hcover. }
  exists st'. repeat split; try assumption.
  - unfold Cover.loadCover. now rewrite Hpromise.
  - intros. unfold Cover.resolveCover, Cover.loadCover, Cover.resume.
    rewrite Hcover', Hpromise. cbv zeta. rewrite Hpromise. now destruct isMounted'.
Qed.

Lemma absent_result_is_memoized_witness :
  exists st',
    Cover.resolveCover "T-A" Cover.Failed (Cover.Fulfilled None) false true Cover.initial
      = Some (st', None) /\
    Cover.coverCache st' !! "T-A" = None /\
    Cover.promiseCache st' !! "T-A"
      = Some {| Cover.failures := 2; Cover.settled := Some None |} /\
    Cover.issued st'
      = Cover.issued Cover.initial ++ [("T-A", Cover.GoogleBooks); ("T-A", Cover.OpenLibrary)] /\
    Cover.loadCover "T-A" st' = st' /\
    forall googleBooks' openLibrary' googleFirst' isMounted',
      Cover.resolveCover "T-A" googleBooks' openLibrary' googleFirst' isMounted' st'
        = Some (st', None).
Proof.
  apply (absent_result_is_memoized "T-A" Cover.Failed (Cover.Fulfilled None) false true
           Cover.initial); reflexivity.
Defined.

(** * Further properties of the recommendation service *)

(** ** Relevance scorer: composition and case *)

Lemma addIf_shift (b : bool) (p s : Z) : addIf b p s = s + addIf b p 0.
Proof. unfold addIf; destruct b; lia. Qed.

Lemma fold_addIf_shift {A : Type} (f : A -> bool) (p : Z) (l : list A) (s : Z) :
  fold_left (fun sc x => addIf (f x) p sc) l s
  = s + fold_left (fun sc x => addIf (f x) p sc) l 0.
Proof.
  revert s; induction l as [|x l IH]; intros s; simpl fold_left; [lia|].
  rewrite IH, (IH (addIf (f x) p 0)), (addIf_shift (f x) p s). lia.
Qed.

Lemma themeScore_shift (t text : string) (s : Z) :
  themeScore t text s = s + themeScore t text 0.
Proof.
  unfold themeScore. destruct (String.eqb t "all themes"); [lia|].
  apply (fold_addIf_shift
           (fun bucket => Js.includes t (fst bucket) && anyOf text (snd bucket))).
Qed.

Lemma seasonalScore_shift (m text : string) (s : Z) :
  seasonalScore m text s = s + seasonalScore m text 0.
Proof.
  unfold seasonalScore.
  apply (fold_addIf_shift
           (fun season => String.eqb m (fst season) && anyOf text (snd season))).
Qed.

Lemma title_match_in_text (book : RawBook) (q : string) :
  Js.includes (Js.toLowerCase (title book)) q = true ->
  Js.includes (searchableText book) q = true.
Proof.
  intros H. unfold searchableText. rewrite toLowerCase_app. now apply includes_app_l.
Qed.

Lemma author_match_in_text (book : RawBook) (q : string) :
  Js.includes (Js.toLowerCase (author book)) q = true ->
  Js.includes (searchableText book) q = true.
Proof.
  intros H. unfold searchableText. rewrite !toLowerCase_app.
  apply includes_app_r, includes_app_r. now apply includes_app_l.
Qed.

(** The points the query block can award. *)
Lemma queryScore_levels (book : RawBook) (q : string) :
  let s := queryScore book (searchableText book) q in
  (Js.includes (searchableText book) q = false -> s = 0) /\
  (Js.includes (searchableText book) q = true -> 20 <= s) /\
  (Js.includes (Js.toLowerCase (title book)) q = true -> 70 <= s) /\
  (Js.includes (Js.toLowerCase (author book)) q = true -> 60 <= s) /\
  (s = 0 \/ s = 20 \/ s = 60 \/ s = 70 \/ s = 110).
Proof.
  cbv zeta. split; [apply queryScore_no_match|].
  pose proof (title_match_in_text book q) as Ht.
  pose proof (author_match_in_text book q) as Ha.
  unfold queryScore, addIf.
  destruct (Js.includes (Js.toLowerCase (title book)) q),
           (Js.includes (Js.toLowerCase (author book)) q),
           (Js.includes (searchableText book) q);
    repeat split; intros; try discriminate; try lia;
    try (specialize (Ht eq_refl); discriminate);
    try (specialize (Ha eq_refl); discriminate).
Qed.



(** X2: the points of a matching query are added to what the book scores
    without a query: 20, 60, 70 or 110 on top of the theme and season
    bonuses. *)
Theorem query_points_add_to_bonuses (book : RawBook) (month theme q : string) :
  queryActive (Some q) = true ->
  Js.includes (searchableText book) (normalizedQuery q) = true ->
  let points := queryScore book (searchableText book) (normalizedQuery q) in
  getRelevancyScore book month theme (Some q)
    = getRelevancyScore book month theme None + points /\
  (points = 20 \/ points = 60 \/ points = 70 \/ points = 110).
Proof.
  intros Hactive Hin points.
  destruct (queryScore_levels book (normalizedQuery q)) as (_ & H20 & _ & _ & Hlev).
  cbv zeta in *. specialize (H20 Hin). fold points in H20, Hlev.
  split; [|lia].
  unfold getRelevancyScore. rewrite Hactive. cbv zeta. fold points.
  destruct (Z.ltb_spec points 20); [lia|].
  rewrite (themeScore_shift _ _ points), seasonalScore_shift.
  rewrite (seasonalScore_shift _ _ (themeScore _ _ 0)). lia.
Qed.

Lemma query_points_add_to_bonuses_witness :
  getRelevancyScore charlotte "March" "Animals" (Some "spider")
    = getRelevancyScore charlotte "March" "Animals" None
      + queryScore charlotte (searchableText charlotte) (normalizedQuery "spider").
Proof.
  apply (query_points_add_to_bonuses charlotte "March" "Animals" "spider"); reflexivity.
Defined.

Lemma lowerChar_idem (c : ascii) : Js.lowerChar (Js.lowerChar c) = Js.lowerChar c.
Proof. destruct c as [[] [] [] [] [] [] [] []]; reflexivity. Qed.

Lemma isWhite_lowerChar (c : ascii) : Js.isWhite (Js.lowerChar c) = Js.isWhite c.
Proof. destruct c as [[] [] [] [] [] [] [] []]; reflexivity. Qed.

Lemma toLowerCase_idem (s : string) : Js.toLowerCase (Js.toLowerCase s) = Js.toLowerCase s.
Proof. induction s as [|c s IH]; simpl; [reflexivity | now rewrite lowerChar_idem, IH]. Qed.

Lemma isEmpty_toLowerCase (s : string) : Js.isEmpty (Js.toLowerCase s) = Js.isEmpty s.
Proof. now destruct s. Qed.

Lemma trimStart_toLowerCase (s : string) :
  Js.trimStart (Js.toLowerCase s) = Js.toLowerCase (Js.trimStart s).
Proof.
  induction s as [|c s IH]; simpl; [reflexivity|].
  rewrite isWhite_lowerChar. now destruct (Js.isWhite c).
Qed.

Lemma trimEnd_toLowerCase (s : string) :
  Js.trimEnd (Js.toLowerCase s) = Js.toLowerCase (Js.trimEnd s).
Proof.
  induction s as [|c s IH]; simpl; [reflexivity|].
  rewrite isWhite_lowerChar, IH, isEmpty_toLowerCase.
  now destruct (Js.isWhite c && Js.isEmpty (Js.trimEnd s)).
Qed.

Lemma trim_toLowerCase (s : string) : Js.trim (Js.toLowerCase s) = Js.toLowerCase (Js.trim s).
Proof. unfold Js.trim. now rewrite trimStart_toLowerCase, trimEnd_toLowerCase. Qed.

(** X3: the score does not depend on the letter case of the month, the
    theme or the query. *)
Theorem score_ignores_case (book : RawBook) (month theme : string) (query : option string) :
  getRelevancyScore book (Js.toLowerCase month) (Js.toLowerCase theme)
    (Js.toLowerCase <$> query)
  = getRelevancyScore book month theme query.
Proof.
  unfold getRelevancyScore. rewrite !toLowerCase_idem.
  destruct query as [q|]; [|reflexivity]. cbn [fmap option_fmap option_map].
  assert (Hactive : queryActive (Some (Js.toLowerCase q)) = queryActive (Some q)).
  { unfold queryActive.
    now rewrite isEmpty_toLowerCase, trim_toLowerCase, isEmpty_toLowerCase. }
  assert (Hnorm : normalizedQuery (Js.toLowerCase q) = normalizedQuery q).
  { unfold normalizedQuery. now rewrite toLowerCase_idem. }
  now rewrite Hactive, Hnorm.
Qed.

Lemma seasonalScore_values (m text : string) (s : Z) :
  seasonalScore m text s = s \/ seasonalScore m text s = s + 5.
Proof.
  unfold seasonalScore. cbn [fold_left seasonalMonths fst snd].
  destruct (String.eqb_spec m "january") as [->|_];
    [|destruct (String.eqb_spec m "february") as [->|_];
      [|destruct (String.eqb_spec m "october") as [->|_]]];
    cbn [String.eqb Ascii.eqb Bool.eqb andb]; unfold addIf;
    repeat match goal with |- context [if ?b then _ else _] => destruct b end; lia.
Qed.

(** X4: with the theme "All Themes" (in any letter case) and no active
    query, every book scores 0 or 5; it scores 0 when the month is other
    than January, February, October and December. *)
Theorem all_themes_scores_only_season
    (book : RawBook) (month theme : string) (query : option string) :
  Js.toLowerCase theme = "all themes" ->
  queryActive query = false ->
  (getRelevancyScore book month theme query = 0 \/
   getRelevancyScore book month theme query = 5) /\
  (Js.toLowerCase month ∉ ["january"; "february"; "october"; "december"] ->
   getRelevancyScore book month theme query = 0).
Proof.
  intros Htheme Hquery.
  assert (Hscore : getRelevancyScore book month theme query
                   = seasonalScore (Js.toLowerCase month) (searchableText book) 0).
  { unfold getRelevancyScore. rewrite Htheme.
    destruct query as [q|]; [rewrite Hquery|]; reflexivity. }
  rewrite Hscore. split.
  - destruct (seasonalScore_values (Js.toLowerCase month) (searchableText book) 0)
      as [->| ->]; [now left | now right].
  - intros Hmonth. unfold seasonalScore. cbn [fold_left seasonalMonths fst snd].
    repeat match goal with
           | |- context [String.eqb (Js.toLowerCase month) ?name] =>
               destruct (String.eqb_spec (Js.toLowerCase month) name) as [E|_];
               [exfalso; apply Hmonth; rewrite E; set_solver|]
           end.
    reflexivity.
Qed.

Lemma all_themes_scores_only_season_witness :
  getRelevancyScore everything "March" "ALL THEMES" (Some "  ") = 0.
Proof.
  apply (all_themes_scores_only_season everything "March" "ALL THEMES" (Some "  "));
    [reflexivity | reflexivity |].
  change (Js.toLowerCase "March") with "march".
  rewrite !not_elem_of_cons. repeat split; try discriminate. apply not_elem_of_nil.
Defined.




(** ** Catalog loader: empty input *)

Lemma omap_length_le {A B : Type} (f : A -> option B) (l : list A) :
  (length (omap f l) <= length l)%nat.
Proof.
  induction l as [|x l IH]; [reflexivity|].
  cbn [omap list_omap]. destruct (f x); cbn [length]; lia.
Qed.

(** A dataset that is empty or all white space gives the empty catalog,
    and a catalog never has more entries than the trimmed dataset has
    lines. *)
Theorem blank_dataset_gives_empty_catalog (tsvData : string) :
  (Js.trim tsvData = "" -> parseBookData tsvData = []) /\
  (length (parseBookData tsvData) <= length (datasetLines tsvData))%nat.
Proof.
  split.
  - intros Hblank. unfold parseBookData, datasetLines. now rewrite Hblank.
  - apply omap_length_le.
Qed.

(** ** Grade ranges *)

(** X6: every grade label resolves to a range with 0.1 <= min < max <= 13;
    the label is matched without regard to letter case, and a label that
    contains none of "1st" ... "6th" gets the widest range, 0.1 to 13. *)
Theorem grade_range_is_well_formed (grade : string) :
  (0.1 <= fst (getBlRange grade))%Q /\
  (fst (getBlRange grade) < snd (getBlRange grade))%Q /\
  (snd (getBlRange grade) <= 13)%Q /\
  getBlRange (Js.toLowerCase grade) = getBlRange grade /\
  ((forall ordinal, ordinal ∈ ["1st"; "2nd"; "3rd"; "4th"; "5th"; "6th"] ->
       Js.includes (Js.toLowerCase grade) ordinal = false) ->
   getBlRange grade = (0.1, 13.0)%Q).
Proof.
  split; [|split; [|split; [|split]]].
  1-3: unfold getBlRange;
       repeat match goal with |- context [if ?b then _ else _] => destruct b end;
       cbn [fst snd]; lra.
  - unfold getBlRange. now rewrite toLowerCase_idem.
  - intros Hnone. unfold getBlRange.
    rewrite !Hnone by set_solver. reflexivity.
Qed.

Lemma grade_range_is_well_formed_witness :
  getBlRange "Kindergarten" = (0.1, 13.0)%Q.
Proof.
  destruct (grade_range_is_well_formed "Kindergarten") as (_ & _ & _ & _ & Hwide).
  apply Hwide. intros ordinal Hin.
  rewrite !elem_of_cons, elem_of_nil in Hin.
  destruct Hin as [->|[->|[->|[->|[->|[->|[]]]]]]]; reflexivity.
Defined.

Lemma blank_dataset_gives_empty_catalog_witness :
  parseBookData (String " " (String Js.newline (String Js.tab ""))) = [].
Proof.
  apply (blank_dataset_gives_empty_catalog (String " " (String Js.newline (String Js.tab "")))).
  reflexivity.
Defined.

(** ** Candidate ranking *)

Lemma insertByScore_perm (c : ScoredCandidate) (l : list ScoredCandidate) :
  insertByScore c l ≡ₚ c :: l.
Proof.
  induction l as [|d l IH]; [reflexivity|]. cbn [insertByScore].
  destruct (Qle_bool (score d) (score c)); [reflexivity|].
  rewrite IH. apply Permutation_swap.
Qed.

Lemma sortByScore_perm (l : list ScoredCandidate) : sortByScore l ≡ₚ l.
Proof.
  induction l as [|c l IH]; [reflexivity|].
  cbn [sortByScore foldr]. rewrite insertByScore_perm. now f_equiv.
Qed.

Lemma insertByScore_sorted (c : ScoredCandidate) (l : list ScoredCandidate) :
  StronglySorted (fun a b => (score b <= score a)%Q) l ->
  StronglySorted (fun a b => (score b <= score a)%Q) (insertByScore c l).
Proof.
  induction 1 as [|d l Hl IH Hd]; cbn [insertByScore].
  - repeat constructor.
  - destruct (Qle_bool (score d) (score c)) eqn:E.
    + apply Qle_bool_iff in E. constructor; [now constructor|].
      constructor; [exact E|].
      eapply Forall_impl; [exact Hd|]. intros x Hx. cbn in Hx |- *. lra.
    + assert (Hlt : (score c <= score d)%Q).
      { destruct (Qlt_le_dec (score c) (score d)) as [H|H]; [lra|].
        apply Qle_bool_iff in H. congruence. }
      constructor; [exact IH|].
      rewrite (insertByScore_perm c l). now constructor.
Qed.

Lemma sortByScore_sorted (l : list ScoredCandidate) :
  StronglySorted (fun a b => (score b <= score a)%Q) (sortByScore l).
Proof.
  induction l as [|c l IH]; [constructor|].
  cbn [sortByScore foldr]. now apply insertByScore_sorted.
Qed.

(** X7: sorting keeps exactly the scored candidates (it is a permutation),
    orders them by score from high to low, and so every candidate within the
    first n scores at least as high as every candidate after them. *)
Theorem sortByScore_ranks_candidates (l : list ScoredCandidate) (n : nat) :
  sortByScore l ≡ₚ l /\
  StronglySorted (fun a b => (score b <= score a)%Q) (sortByScore l) /\
  (forall kept dropped,
      kept ∈ take n (sortByScore l) -> dropped ∈ drop n (sortByScore l) ->
      (score dropped <= score kept)%Q).
Proof.
  split; [apply sortByScore_perm|]. split; [apply sortByScore_sorted|].
  intros kept dropped Hk Hd.
  pose proof (sortByScore_sorted l) as Hs.
  rewrite <- (take_drop n (sortByScore l)) in Hs.
  exact (StronglySorted_app_1_elem_of _ _ _ _ _ Hs Hk Hd).
Qed.

Lemma sortByScore_ranks_candidates_witness :
  (score {| candidate := everything; score := 0.2 |}
   <= score {| candidate := charlotte; score := 30.5 |})%Q.
Proof.
  destruct (sortByScore_ranks_candidates
              [ {| candidate := everything; score := 0.2 |};
                {| candidate := charlotte; score := 30.5 |} ] 1) as (_ & _ & Hrank).
  apply Hrank; vm_compute; constructor.
Defined.

(** ** Candidate selection *)

Lemma scoreCandidates_elem
    (random : nat -> Q) (month theme : string) (query : option string)
    (candidates : list RawBook) (c : ScoredCandidate) :
  c ∈ scoreCandidates random month theme query candidates ->
  exists i,
    candidates !! i = Some (candidate c) /\
    score c = (inject_Z (getRelevancyScore (candidate c) month theme query) + random i)%Q /\
    (-5 < score c)%Q.
Proof.
  unfold scoreCandidates. rewrite list_elem_of_In, filter_In, <- list_elem_of_In.
  intros [Hin Hkeep].
  apply elem_of_lookup_imap in Hin as (i & b & -> & Hb).
  exists i. cbn [candidate score] in *. repeat split; [exact Hb|].
  apply negb_true_iff in Hkeep.
  destruct (Qlt_le_dec (-5) (inject_Z (getRelevancyScore b month theme query) + random i))
    as [H|H]; [exact H|].
  apply Qle_bool_iff in H. congruence.
Qed.

Section Selection.

Variable RAW_BOOK_DATABASE_TSV : string.
Variable withinWidenedRange : jsnum -> Q -> Q -> bool.

Lemma topCandidates_elem
    (random : nat -> Q) (grade month theme : string) (limit : Z) (query : option string)
    (c : ScoredCandidate) :
  c ∈ topCandidates RAW_BOOK_DATABASE_TSV withinWidenedRange random grade month theme
        limit query ->
  candidate c ∈ ALL_BOOKS_DATABASE RAW_BOOK_DATABASE_TSV /\
  (Js.truthy query = false ->
   withinWidenedRange (bl (candidate c)) (fst (getBlRange grade)) (snd (getBlRange grade))
     = true) /\
  (exists i, score c
     = (inject_Z (getRelevancyScore (candidate c) month theme query) + random i)%Q) /\
  (-5 < score c)%Q.
Proof.
  unfold topCandidates. destruct (getBlRange grade) as [min max]. cbn [fst snd].
  intros Hin. apply subseteq_take in Hin. rewrite sortByScore_perm in Hin.
  apply scoreCandidates_elem in Hin as (i & Hi & Hscore & Hkeep).
  apply list_elem_of_lookup_2 in Hi.
  destruct (Js.truthy query).
  - repeat split; [exact Hi | discriminate | now exists i | exact Hkeep].
  - rewrite list_elem_of_In, filter_In, <- list_elem_of_In in Hi.
    destruct Hi as [Hdb Hrange].
    repeat split; [exact Hdb | now intros _ | now exists i | exact Hkeep].
Qed.

(** X8: the candidate pool handed to the curation service has at most
    max(40, 2 * limit) entries; each entry is a catalog book whose combined
    score exceeds -5, and when no query is given each entry passed the grade
    range test. *)
Theorem candidate_pool_is_bounded
    (random : nat -> Q) (grade month theme : string) (limit : Z) (query : option string) :
  let top := topCandidates RAW_BOOK_DATABASE_TSV withinWidenedRange random grade month
               theme limit query in
  (Z.of_nat (length top) <= Z.max 40 (limit * 2)) /\
  (length top <= length (ALL_BOOKS_DATABASE RAW_BOOK_DATABASE_TSV))%nat /\
  (forall c, c ∈ top ->
     candidate c ∈ ALL_BOOKS_DATABASE RAW_BOOK_DATABASE_TSV /\ (-5 < score c)%Q) /\
  (Js.truthy query = false ->
   forall c, c ∈ top ->
     withinWidenedRange (bl (candidate c)) (fst (getBlRange grade)) (snd (getBlRange grade))
       = true).
Proof.
  intros top. split; [|split; [|split]].
  - unfold top, topCandidates. destruct (getBlRange grade) as [min max].
    rewrite length_take. lia.
  - unfold top, topCandidates. destruct (getBlRange grade) as [min max].
    rewrite length_take, sortByScore_perm. unfold scoreCandidates.
    match goal with |- context [List.filter ?f (imap ?g ?l)] =>
      pose proof (filter_length_le f (imap g l)) as Hf;
      rewrite length_imap in Hf
    end.
    destruct (Js.truthy query); [lia|].
    pose proof (filter_length_le (fun b => withinWidenedRange (bl b) min max)
                  (ALL_BOOKS_DATABASE RAW_BOOK_DATABASE_TSV)). lia.
  - intros c Hc. apply topCandidates_elem in Hc as (Hdb & _ & _ & Hkeep). now split.
  - intros Hq c Hc. apply topCandidates_elem in Hc as (_ & Hrange & _). now apply Hrange.
Qed.


End Selection.

Lemma candidate_pool_is_bounded_witness :
  candidate {| candidate := infinityBook; score := inject_Z 70 + 0.5 |}
    ∈ ALL_BOOKS_DATABASE infinityRow /\
  (-5 < score {| candidate := infinityBook; score := inject_Z 70 + 0.5 |})%Q.
Proof.
  destruct (candidate_pool_is_bounded infinityRow (fun _ _ _ => true) (fun _ => 0.5%Q)
              "3rd Grade" "March" "Animals" 10 (Some "Title")) as (_ & _ & Hpool & _).
  apply Hpool. vm_compute. constructor.
Defined.


(** ** Orchestrator: cache and short circuits *)

Section OrchestratorProperties.

Variable Book : Type.
Variable JSON_parse : string -> option (RecommendationResult Book).
Variable JSON_stringify : RecommendationResult Book -> string.
Variable RAW_BOOK_DATABASE_TSV : string.
Variable withinWidenedRange : jsnum -> Q -> Q -> bool.

Local Abbreviation recommend :=
  (generateBookRecommendations Book JSON_parse JSON_stringify RAW_BOOK_DATABASE_TSV
     withinWidenedRange).

(** X10: a cached entry that parses is returned as it is, whatever the
    credential, the random source and the service: on a hit the service is
    not consulted, no credential is needed and storage is left unchanged. *)
Theorem cache_hit_needs_no_service
    (API_KEY : option string) (random : nat -> Q) (generateContent : Prompt -> response)
    (st : Storage) (grade month theme : string) (limit : Z) (query : option string)
    (cachedData : string) (cached : RecommendationResult Book) :
  getItem (cacheKey grade month theme limit query) st = Some cachedData ->
  Js.isEmpty cachedData = false ->
  JSON_parse cachedData = Some cached ->
  recommend API_KEY random generateContent st grade month theme limit query
    = (Returned cached, st).
Proof.
  intros Hget Hne Hparse. unfold generateBookRecommendations, readCache.
  now rewrite Hget, Hne, Hparse.
Qed.



(** X13: with the credential missing (undefined or empty) a call returns
    only on a cache hit; otherwise it throws "API Key is missing." without
    consulting the service, after removing a cached entry that does not
    parse. *)
Theorem missing_credential_throws_after_cache
    (API_KEY : option string) (random : nat -> Q) (generateContent : Prompt -> response)
    (st : Storage) (grade month theme : string) (limit : Z) (query : option string) :
  Js.truthy API_KEY = false ->
  let key := cacheKey grade month theme limit query in
  let run := recommend API_KEY random generateContent st grade month theme limit query in
  (forall cached, fst (readCache Book JSON_parse key st) = Some cached ->
     run = (Returned cached, st)) /\
  (fst (readCache Book JSON_parse key st) = None ->
     fst run = Thrown (Error "API Key is missing.") /\
     setItemCalls (snd run) = setItemCalls st /\
     (forall cachedData,
         getItem key st = Some cachedData -> Js.isEmpty cachedData = false ->
         getItem key (snd run) = None)).
Proof.
  intros Hkey key run. unfold run, generateBookRecommendations. fold key.
  unfold readCache. destruct (getItem key st) as [cachedData|] eqn:Hget.
  - destruct (Js.isEmpty cachedData) eqn:He.
    + cbn [fst]. rewrite Hkey. cbn [negb fst snd].
      split; [discriminate|]. intros _. repeat split. intros c [= <-]. congruence.
    + destruct (JSON_parse cachedData) as [r|]; cbn [fst].
      * split; [now intros c [= <-] | discriminate].
      * rewrite Hkey. cbn [negb fst snd]. split; [discriminate|]. intros _.
        repeat split. intros c _ _. unfold getItem, removeItem. cbn [items].
        apply lookup_delete_eq.
  - cbn [fst]. rewrite Hkey. cbn [negb fst snd]. split; [discriminate|].
    intros _. repeat split. discriminate.
Qed.


End OrchestratorProperties.

Lemma cache_hit_needs_no_service_witness :
  generateBookRecommendations string sampleParse sampleStringify infinityRow
    (fun _ _ _ => true) None (fun _ => 0.5%Q) (fun _ => Rejected)
    (setItem (cacheKey "3rd Grade" "March" "Animals" 10 None) "one" emptyStorage)
    "3rd Grade" "March" "Animals" 10 None
  = (Returned {| books := Some ["Charlotte's Web"] |},
     setItem (cacheKey "3rd Grade" "March" "Animals" 10 None) "one" emptyStorage).
Proof.
  apply (cache_hit_needs_no_service string sampleParse sampleStringify infinityRow
           (fun _ _ _ => true) None (fun _ => 0.5%Q) (fun _ => Rejected) _
           "3rd Grade" "March" "Animals" 10 None "one"); reflexivity.
Defined.



Lemma missing_credential_throws_after_cache_witness :
  fst (generateBookRecommendations string sampleParse sampleStringify infinityRow
         (fun _ _ _ => true) (Some "") (fun _ => 0.5%Q) (fun _ => Response (Some "one"))
         (setItem (cacheKey "3rd Grade" "March" "Animals" 10 None) "corrupt" emptyStorage)
         "3rd Grade" "March" "Animals" 10 None)
  = Thrown (Error "API Key is missing.").
Proof.
  destruct (missing_credential_throws_after_cache string sampleParse sampleStringify
              infinityRow (fun _ _ _ => true) (Some "") (fun _ => 0.5%Q)
              (fun _ => Response (Some "one"))
              (setItem (cacheKey "3rd Grade" "March" "Animals" 10 None) "corrupt" emptyStorage)
              "3rd Grade" "March" "Animals" 10 None eq_refl) as [_ Hmiss].
  apply Hmiss. reflexivity.
Defined.


(** ** Verification request *)

Lemma split_without_separator (sep : ascii) (s : string) :
  Js.includes s (String sep "") = false -> Js.split sep s = [s].
Proof.
  induction s as [|c s IH]; [reflexivity|].
  rewrite includes_cons. cbn [Js.startsWith Js.split].
  intros H. apply orb_false_iff in H as [Hc Hs].
  assert (Hne : Ascii.eqb c sep = false).
  { rewrite Ascii.eqb_sym. destruct (Ascii.eqb sep c); [|reflexivity].
    now destruct s. }
  rewrite Hne, (IH Hs). reflexivity.
Qed.

Lemma split_at_first_separator (sep : ascii) (a b : string) :
  Js.includes a (String sep "") = false ->
  Js.split sep (a +:+ String sep b) = a :: Js.split sep b.
Proof.
  induction a as [|c a IH]; intros H.
  - simpl. now rewrite Ascii.eqb_refl.
  - rewrite includes_cons in H. cbn [Js.startsWith] in H.
    apply orb_false_iff in H as [Hc Ha].
    assert (Hne : Ascii.eqb c sep = false).
    { rewrite Ascii.eqb_sym. destruct (Ascii.eqb sep c); [|reflexivity].
      now destruct a. }
    change (String c a +:+ String sep b) with (String c (a +:+ String sep b)).
    cbn [Js.split]. now rewrite Hne, (IH Ha).
Qed.

(** X15: the image part sent for verification is the payload after the
    first comma of a data URL (up to the next comma, if any); an image text
    with no comma, or with nothing after its first comma, is sent whole. *)
Theorem verification_payload (header payload title author : string) :
  Js.includes header "," = false ->
  Js.includes payload "," = false ->
  inlineData (verificationRequest (header +:+ String "," payload) title author)
    = (if Js.isEmpty payload then header +:+ String "," payload else payload) /\
  inlineData (verificationRequest header title author) = header.
Proof.
  intros Hh Hp. unfold verificationRequest. cbn [inlineData]. split.
  - rewrite (split_at_first_separator "," header payload Hh).
    rewrite (split_without_separator "," payload Hp). reflexivity.
  - now rewrite (split_without_separator "," header Hh).
Qed.

Lemma verification_payload_witness :
  inlineData (verificationRequest ("data:image/jpeg;base64" +:+ String "," "AAAA")
                "Charlotte's Web" "E.B. White") = "AAAA".
Proof.
  apply (verification_payload "data:image/jpeg;base64" "AAAA"); reflexivity.
Defined.

(** ** Cover race: order, memo and frame *)

Module CoverRace.
Import Cover.

Lemma resolve_settled (v x : option string) (r : Race) :
  settled r = Some x -> resolve v r = r.
Proof. intros H. unfold resolve. now rewrite H. Qed.

Lemma onLookup_keeps_settled (l : lookup) (r : Race) (x : option string) :
  settled r = Some x -> settled (onLookup l r) = Some x.
Proof.
  intros H. unfold onLookup, checkFailure.
  destruct l as [url|]; [destruct (Js.truthy url)|];
    try (now rewrite (resolve_settled _ x));
    cbn [failures]; destruct (_ =? 2)%nat; cbn [settled];
    try (rewrite (resolve_settled _ x) by exact H); exact H.
Qed.

Lemma getProxiedUrl_nonempty (u : string) :
  Js.isEmpty u = false -> Js.isEmpty (getProxiedUrl u) = false.
Proof.
  intros Hu. unfold getProxiedUrl. destruct (Js.startsWith u "data:"); [exact Hu|].
  reflexivity.
Qed.

End CoverRace.

(** X16: a race promise settles once: whatever lookup completes after the
    promise has settled, the settled value stays; so when both lookups yield
    a URL, the race resolves to the proxied URL of the one that settled
    first. *)
Theorem first_cover_wins
    (googleBooks openLibrary : Cover.lookup) (g o : string) :
  (forall l r x, Cover.settled r = Some x -> Cover.settled (Cover.onLookup l r) = Some x) /\
  (Cover.lookupYields googleBooks g -> Cover.lookupYields openLibrary o ->
   Cover.settled (Cover.race googleBooks openLibrary true)
     = Some (Some (Cover.getProxiedUrl g)) /\
   Cover.settled (Cover.race googleBooks openLibrary false)
     = Some (Some (Cover.getProxiedUrl o))).
Proof.
  split; [exact CoverRace.onLookup_keeps_settled|].
  intros Hg Ho. unfold Cover.race. split.
  - apply CoverRace.onLookup_keeps_settled.
    now rewrite (CoverFacts.onLookup_yields googleBooks g).
  - apply CoverRace.onLookup_keeps_settled.
    now rewrite (CoverFacts.onLookup_yields openLibrary o).
Qed.

Lemma first_cover_wins_witness :
  Cover.settled (Cover.race (Cover.Fulfilled (Some "http://books.google.com/c?id=1"))
                   (Cover.Fulfilled (Some "https://covers.openlibrary.org/b/id/42-L.jpg"))
                   false)
  = Some (Some (Cover.getProxiedUrl "https://covers.openlibrary.org/b/id/42-L.jpg")).
Proof.
  destruct (first_cover_wins (Cover.Fulfilled (Some "http://books.google.com/c?id=1"))
              (Cover.Fulfilled (Some "https://covers.openlibrary.org/b/id/42-L.jpg"))
              "http://books.google.com/c?id=1"
              "https://covers.openlibrary.org/b/id/42-L.jpg") as [_ Hboth].
  apply Hboth; split; reflexivity.
Defined.

(** X17: for a key with no race yet, a single failed lookup leaves the
    resolution pending (the continuation cannot run), while a single lookup
    that yields a URL lets the continuation return its proxied URL at once,
    before the other lookup has settled. *)
Theorem one_lookup_settled
    (key : string) (l : Cover.lookup) (isMounted : bool) (st : Cover.State) :
  Cover.promiseCache st !! key = None ->
  (Cover.lookupFails l = true ->
   Cover.resume key isMounted (Cover.lookupSettles key l (Cover.loadCover key st)) = None) /\
  (forall u, Cover.lookupYields l u ->
   snd <$> Cover.resume key isMounted (Cover.lookupSettles key l (Cover.loadCover key st))
     = Some (Some (Cover.getProxiedUrl u))).
Proof.
  intros Hfresh.
  assert (Hrace : Cover.promiseCache (Cover.lookupSettles key l (Cover.loadCover key st)) !! key
                  = Some (Cover.onLookup l Cover.newRace)).
  { unfold Cover.loadCover. rewrite Hfresh.
    cbn [Cover.lookupSettles Cover.promiseCache].
    now rewrite lookup_alter_eq, lookup_insert_eq. }
  split.
  - intros Hfail. unfold Cover.resume. rewrite Hrace.
    now rewrite (CoverFacts.onLookup_fails l _ Hfail).
  - intros u Hu. unfold Cover.resume. rewrite Hrace.
    rewrite (CoverFacts.onLookup_yields l u _ Hu).
    cbn [Cover.resolve Cover.newRace Cover.settled].
    now destruct (isMounted && _).
Qed.

Lemma one_lookup_settled_witness :
  Cover.resume "T-A" true (Cover.lookupSettles "T-A" Cover.Failed
                            (Cover.loadCover "T-A" Cover.initial)) = None.
Proof.
  apply (one_lookup_settled "T-A" Cover.Failed true Cover.initial); reflexivity.
Defined.

Lemma loadCover_present (key : string) (st : Cover.State) :
  is_Some (Cover.promiseCache (Cover.loadCover key st) !! key).
Proof.
  unfold Cover.loadCover. destruct (Cover.promiseCache st !! key) as [r|] eqn:E.
  - rewrite E. now eexists.
  - cbn [Cover.promiseCache]. rewrite lookup_insert_eq. now eexists.
Qed.

Lemma loadCover_idem (key : string) (st : Cover.State) :
  Cover.loadCover key (Cover.loadCover key st) = Cover.loadCover key st.
Proof.
  destruct (loadCover_present key st) as [r Hr].
  unfold Cover.loadCover at 1. now rewrite Hr.
Qed.

(** X18: requests for the same key share one race: the first call issues
    one lookup to each source, and any number of further calls for that key
    issue none and leave the state as it is. *)
Theorem concurrent_requests_share_lookups (key : string) (st : Cover.State) (n : nat) :
  Nat.iter (S n) (Cover.loadCover key) st = Cover.loadCover key st /\
  (Cover.promiseCache st !! key = None ->
   Cover.issued (Nat.iter (S n) (Cover.loadCover key) st)
     = Cover.issued st ++ [(key, Cover.GoogleBooks); (key, Cover.OpenLibrary)]) /\
  (is_Some (Cover.promiseCache st !! key) ->
   Nat.iter (S n) (Cover.loadCover key) st = st).
Proof.
  assert (Hiter : Nat.iter (S n) (Cover.loadCover key) st = Cover.loadCover key st).
  { induction n as [|n IH]; [reflexivity|].
    change (Nat.iter (S (S n)) (Cover.loadCover key) st)
      with (Cover.loadCover key (Nat.iter (S n) (Cover.loadCover key) st)).
    rewrite IH. apply loadCover_idem. }
  rewrite Hiter. split; [reflexivity|]. split.
  - intros Hfresh. unfold Cover.loadCover. now rewrite Hfresh.
  - intros [r Hr]. unfold Cover.loadCover. now rewrite Hr.
Qed.

Lemma concurrent_requests_share_lookups_witness :
  Cover.issued (Nat.iter 3 (Cover.loadCover "T-A") Cover.initial)
    = Cover.issued Cover.initial ++ [("T-A", Cover.GoogleBooks); ("T-A", Cover.OpenLibrary)].
Proof.
  apply (concurrent_requests_share_lookups "T-A" Cover.initial 2). reflexivity.
Defined.

(** X19: when a resolution for a key in neither cache finds a cover while
    the card is mounted, the proxied URL is stored in [coverCache], and every
    later resolution for that key returns it from there: no lookup is issued
    and the state does not change. *)
Theorem found_cover_is_cached
    (key : string) (googleBooks openLibrary : Cover.lookup) (googleFirst : bool)
    (st : Cover.State) (url : string) :
  Cover.coverCache st !! key = None ->
  Cover.promiseCache st !! key = None ->
  Cover.settled (Cover.race googleBooks openLibrary googleFirst) = Some (Some url) ->
  Js.isEmpty url = false ->
  exists st',
    Cover.resolveCover key googleBooks openLibrary googleFirst true st
      = Some (st', Some url) /\
    Cover.coverCache st' !! key = Some url /\
    forall googleBooks' openLibrary' googleFirst' isMounted',
      Cover.resolveCover key googleBooks' openLibrary' googleFirst' isMounted' st'
        = Some (st', Some url).
Proof.
  intros Hcover Hfresh Hsettled Hurl.
  destruct (CoverFacts.resolveCover_fresh key googleBooks openLibrary googleFirst true st
              (Some url) Hcover Hfresh Hsettled) as (st' & Hrun & _ & _ & Hcc).
  assert (Hstored : Cover.coverCache st' !! key = Some url).
  { destruct Hcc as [Hsame | (_ & url' & [= <-] & _ & ->)];
      [|apply lookup_insert_eq].
    exfalso. unfold Cover.resolveCover in Hrun. rewrite Hcover, Hfresh in Hrun.
    destruct (CoverFacts.settled_state key googleBooks openLibrary googleFirst st Hfresh)
      as (Hrace & Hcc2 & _).
    cbv zeta in Hrace, Hcc2.
    set (st2 := if googleFirst then _ else _) in *.
    unfold Cover.resume in Hrun. rewrite Hrace in Hrun.
    destruct (Cover.race googleBooks openLibrary googleFirst) as [k s].
    cbn [Cover.settled] in Hsettled. subst s.
    cbn [andb Js.truthy] in Hrun. rewrite Hurl in Hrun. cbn [negb] in Hrun.
    injection Hrun as <-. cbn [Cover.coverCache] in Hsame.
    apply (f_equal (fun m => m !! key)) in Hsame.
    rewrite lookup_insert_eq, Hcover in Hsame. discriminate. }
  exists st'. repeat split; [exact Hrun | exact Hstored|].
  intros. unfold Cover.resolveCover. now rewrite Hstored.
Qed.

Lemma found_cover_is_cached_witness :
  exists st',
    Cover.resolveCover "T-A" Cover.Failed
        (Cover.Fulfilled (Some "https://covers.openlibrary.org/b/id/42-L.jpg")) true true
        Cover.initial
      = Some (st', Some (Cover.getProxiedUrl "https://covers.openlibrary.org/b/id/42-L.jpg")) /\
    Cover.coverCache st' !! "T-A"
      = Some (Cover.getProxiedUrl "https://covers.openlibrary.org/b/id/42-L.jpg") /\
    forall googleBooks' openLibrary' googleFirst' isMounted',
      Cover.resolveCover "T-A" googleBooks' openLibrary' googleFirst' isMounted' st'
        = Some (st', Some (Cover.getProxiedUrl "https://covers.openlibrary.org/b/id/42-L.jpg")).
Proof.
  apply (found_cover_is_cached "T-A" Cover.Failed
           (Cover.Fulfilled (Some "https://covers.openlibrary.org/b/id/42-L.jpg")) true
           Cover.initial); reflexivity.
Defined.

(** X20: a resolution for one key leaves the entries of every other key, in
    both maps, as they were. *)
Theorem other_covers_are_untouched
    (key other : string) (googleBooks openLibrary : Cover.lookup)
    (googleFirst isMounted : bool) (st st' : Cover.State) (v : option string) :
  other <> key ->
  Cover.resolveCover key googleBooks openLibrary googleFirst isMounted st = Some (st', v) ->
  Cover.coverCache st' !! other = Cover.coverCache st !! other /\
  Cover.promiseCache st' !! other = Cover.promiseCache st !! other.
Proof.
  intros Hne. unfold Cover.resolveCover.
  destruct (Cover.coverCache st !! key); [now intros [= <- <-]|].
  set (st2 := match Cover.promiseCache st !! key with Some _ => _ | None => _ end).
  assert (H2 : Cover.coverCache st2 = Cover.coverCache st /\
               Cover.promiseCache st2 !! other = Cover.promiseCache st !! other).
  { unfold st2, Cover.loadCover.
    destruct (Cover.promiseCache st !! key); [now split|].
    destruct googleFirst; cbn [Cover.lookupSettles Cover.coverCache Cover.promiseCache];
      (split; [reflexivity|]);
      rewrite !lookup_alter_ne by congruence; now apply lookup_insert_ne. }
  destruct H2 as [Hcc Hpc]. unfold Cover.resume.
  destruct (Cover.promiseCache st2 !! key) as [[k [s|]]|]; try discriminate.
  destruct (isMounted && Js.truthy s); intros [= <- <-];
    cbn [Cover.coverCache Cover.promiseCache]; rewrite ?Hcc; split; try exact Hpc;
    try reflexivity.
  now apply lookup_insert_ne.
Qed.

Lemma other_covers_are_untouched_witness :
  Cover.coverCache failedOnce !! "Other-Book" = Cover.coverCache Cover.initial !! "Other-Book" /\
  Cover.promiseCache failedOnce !! "Other-Book"
    = Cover.promiseCache Cover.initial !! "Other-Book".
Proof.
  apply (other_covers_are_untouched "T-A" "Other-Book" Cover.Failed Cover.Failed true true
           Cover.initial failedOnce None); [discriminate | reflexivity].
Defined.

(** ** Proxied URLs *)

Lemma includes_char_cons (c d : ascii) (s : string) :
  Js.includes (String d s) (String c "") = Ascii.eqb c d || Js.includes s (String c "").
Proof.
  rewrite includes_cons. cbn [Js.startsWith].
  destruct (Ascii.eqb c d); [|reflexivity]. now destruct s.
Qed.

Lemma includes_char_app (c : ascii) (a b : string) :
  Js.includes (a +:+ b) (String c "")
  = Js.includes a (String c "") || Js.includes b (String c "").
Proof.
  induction a as [|d a IH]; [reflexivity|].
  change (String d a +:+ b) with (String d (a +:+ b)).
  rewrite !includes_char_cons, IH. now rewrite orb_assoc.
Qed.

Lemma hexDigit_unreserved (n : N) :
  (n < 16)%N -> Cover.isUnreserved (Cover.hexDigit n) = true.
Proof.
  intros Hn. destruct n as [|p]; [reflexivity|].
  do 4 (destruct p as [p|p|]; try reflexivity); exfalso; lia.
Qed.

Lemma percentByte_chars (n : N) (rest : string) (c : ascii) :
  (n < 256)%N ->
  Js.includes (Cover.percentByte n rest) (String c "") = true ->
  c = "%"%char \/ Cover.isUnreserved c = true \/ Js.includes rest (String c "") = true.
Proof.
  intros Hn. unfold Cover.percentByte. rewrite !includes_char_cons.
  intros H. apply orb_true_iff in H as [H|H].
  { left. now apply Ascii.eqb_eq in H. }
  apply orb_true_iff in H as [H|H].
  { right; left. apply Ascii.eqb_eq in H as ->. apply hexDigit_unreserved.
    apply N.Div0.div_lt_upper_bound; lia. }
  apply orb_true_iff in H as [H|H].
  { right; left. apply Ascii.eqb_eq in H as ->. apply hexDigit_unreserved.
    apply N.mod_lt; lia. }
  now right; right.
Qed.

(** X21: the text that [encodeURIComponent] produces consists of unreserved
    characters (letters, digits and [- _ . ! ~ * ' ( )]) and percent signs
    only; in particular it holds no [&], [=], [#], [?], [/] or space, so the
    source URL cannot add parameters to the proxied URL. *)
Theorem encoded_text_is_safe (s : string) (c : ascii) :
  Js.includes (Cover.encodeURIComponent s) (String c "") = true ->
  c = "%"%char \/ Cover.isUnreserved c = true.
Proof.
  induction s as [|d s IH]; [discriminate|].
  cbn [Cover.encodeURIComponent].
  assert (Hd : (Js.code d < 256)%N) by apply N_ascii_bounded.
  destruct (Cover.isUnreserved d) eqn:Hun.
  - rewrite includes_char_cons. intros H. apply orb_true_iff in H as [H|H]; [|auto].
    right. apply Ascii.eqb_eq in H. now subst.
  - destruct (Js.code d <? 128)%N.
    + intros H. apply percentByte_chars in H as [H|[H|H]]; auto.
    + intros H. apply percentByte_chars in H as [H|[H|H]]; auto.
      * apply percentByte_chars in H as [H|[H|H]]; auto.
        assert (Js.code d mod 64 < 64)%N by (apply N.mod_lt; lia). lia.
      * assert (Js.code d / 64 < 4)%N by (apply N.Div0.div_lt_upper_bound; lia). lia.
Qed.

Lemma encoded_text_is_safe_witness :
  "2"%char = "%"%char \/ Cover.isUnreserved "2" = true.
Proof. apply (encoded_text_is_safe "a&w=1 b" "2"). reflexivity. Defined.

(** A URL is proxied the same way whether it is given with [http://]
    or with [https://]: exactly one leading protocol is removed, and the
    rest is encoded into the [url] parameter of the image proxy, followed by
    the fixed width and format parameters. *)
Theorem proxied_url_ignores_protocol (rest : string) :
  Cover.getProxiedUrl ("http://" +:+ rest) = Cover.getProxiedUrl ("https://" +:+ rest) /\
  Cover.getProxiedUrl ("https://" +:+ rest)
    = "https://wsrv.nl/?url=" +:+ Cover.encodeURIComponent rest +:+ "&w=400&output=webp".
Proof.
  assert (Hhttp : Cover.stripProtocol ("http://" +:+ rest) = rest).
  { unfold Cover.stripProtocol. cbn. now destruct rest. }
  assert (Hhttps : Cover.stripProtocol ("https://" +:+ rest) = rest).
  { unfold Cover.stripProtocol. cbn. now destruct rest. }
  unfold Cover.getProxiedUrl, Cover.proxied. rewrite Hhttp, Hhttps. now cbn.
Qed.

(** * Properties of the application and the card *)

(** ** Lexile labels *)

Lemma string_app_assoc (a b c : string) : (a +:+ b) +:+ c = a +:+ (b +:+ c).
Proof.
  induction a as [|x a IH]; [reflexivity|].
  change (String x ((a +:+ b) +:+ c) = String x (a +:+ b +:+ c)). now f_equal.
Qed.

Lemma string_app_empty_r (s : string) : s +:+ "" = s.
Proof.
  induction s as [|c s IH]; [reflexivity|].
  change (String c (s +:+ "") = String c s). now f_equal.
Qed.

Lemma keepDigits_app (a b : string) :
  App.keepDigits (a +:+ b) = App.keepDigits a +:+ App.keepDigits b.
Proof.
  induction a as [|c a IH]; [reflexivity|]. simpl.
  destruct (isDigit c); simpl; now rewrite IH.
Qed.

Lemma digitsValue_app (acc : N) (a b : string) :
  digitsValue acc (a +:+ b) = digitsValue (digitsValue acc a) b.
Proof. revert acc; induction a as [|c a IH]; intros acc; simpl; [reflexivity | apply IH]. Qed.

Lemma pretty_N_char_digit (m : N) :
  (m < 10)%N ->
  isDigit (pretty_N_char m) = true /\ (Js.code (pretty_N_char m) - 48 = m)%N.
Proof.
  intros Hm.
  assert (m = 0 \/ m = 1 \/ m = 2 \/ m = 3 \/ m = 4 \/ m = 5 \/ m = 6 \/ m = 7
          \/ m = 8 \/ m = 9)%N as H by lia.
  repeat destruct H as [->|H]; try subst m; now split.
Qed.

Lemma pretty_N_go_app (x : N) (s : string) : pretty_N_go x s = pretty_N_go x "" +:+ s.
Proof.
  revert s. induction (N.lt_wf_0 x) as [x _ IH]; intros s.
  assert (x = 0 \/ 0 < x)%N as [->|Hx] by lia; [reflexivity|].
  rewrite (pretty_N_go_step x s), (pretty_N_go_step x "") by exact Hx.
  pose proof (IH (x / 10)%N ltac:(now apply N.div_lt)) as IH'.
  rewrite (IH' (String (pretty_N_char (x mod 10)) s)).
  rewrite (IH' (String (pretty_N_char (x mod 10)) "")).
  now rewrite string_app_assoc.
Qed.

Lemma pretty_N_go_value (x : N) :
  App.keepDigits (pretty_N_go x "") = pretty_N_go x "" /\
  digitsValue 0 (pretty_N_go x "") = x.
Proof.
  induction (N.lt_wf_0 x) as [x _ IH].
  assert (x = 0 \/ 0 < x)%N as [->|Hx] by lia; [now split|].
  rewrite pretty_N_go_step by exact Hx. rewrite pretty_N_go_app.
  destruct (IH (x / 10)%N) as [Hk Hv]; [now apply N.div_lt|].
  destruct (pretty_N_char_digit (x mod 10)) as [Hd Hc]; [apply N.mod_lt; lia|].
  split.
  - rewrite keepDigits_app, Hk. simpl. now rewrite Hd.
  - rewrite digitsValue_app, Hv. simpl. rewrite Hc.
    pose proof (N.div_mod x 10). lia.
Qed.

Lemma pretty_N_value (n : N) :
  App.keepDigits (pretty n) = pretty n /\
  digitsValue 0 (pretty n) = n /\
  Js.isEmpty (pretty n) = false.
Proof.
  unfold pretty, pretty_N. destruct (decide (n = 0)%N) as [->|Hn]; [now repeat split|].
  destruct (pretty_N_go_value n) as [Hk Hv]. repeat split; [exact Hk | exact Hv|].
  destruct (pretty_N_go n "") eqn:E; [|reflexivity].
  simpl in Hv. congruence.
Qed.

Lemma small_value_fits (n : N) : (n < 2 ^ 53)%N -> overflows n 0 = false.
Proof.
  intros Hn. unfold overflows. cbn [Z.leb Z.compare]. apply Z.leb_gt.
  assert (Hbig : 2 ^ 53 <= 2 ^ 1024 - 2 ^ 970) by (vm_compute; discriminate).
  assert (Hz : Z.of_N n < 2 ^ 53).
  { change (2 ^ 53) with (Z.of_N (2 ^ 53)). now apply N2Z.inj_lt. }
  change (10 ^ 0) with 1. rewrite Z.mul_1_r.
  eapply Z.lt_le_trans; [exact Hz | exact Hbig].
Qed.

(** X22: a Lexile label made of a number below 2^53 printed in decimal, with
    any markers without digits before and after it ("540L", "BR120L"), has
    exactly that number as its value; a label without digits has the value
    0, and a character that is not a digit never changes the value. *)
Theorem lexile_value_reads_the_number (before after : string) (n : N) :
  App.keepDigits before = "" -> App.keepDigits after = "" ->
  ((n < 2 ^ 53)%N ->
   App.getLexileValue (before +:+ pretty n +:+ after) = Decimal false n 0) /\
  App.getLexileValue (before +:+ after) = Decimal false 0 0 /\
  (forall a b c, isDigit c = false ->
     App.getLexileValue (a +:+ String c b) = App.getLexileValue (a +:+ b)).
Proof.
  intros Hb Ha. destruct (pretty_N_value n) as (Hk & Hv & Hne).
  unfold App.getLexileValue. repeat split.
  - intros Hn. rewrite !keepDigits_app, Hb, Ha, Hk, string_app_empty_r.
    change ("" +:+ pretty n) with (pretty n).
    rewrite Hne, Hv. now rewrite (small_value_fits n Hn).
  - now rewrite keepDigits_app, Hb, Ha.
  - intros a b c Hc. rewrite !keepDigits_app. simpl. now rewrite Hc.
Qed.

Lemma lexile_value_reads_the_number_witness :
  App.getLexileValue ("BR" +:+ pretty 120%N +:+ "L") = Decimal false 120 0.
Proof.
  apply (lexile_value_reads_the_number "BR" "L" 120); [reflexivity | reflexivity|].
  vm_compute. reflexivity.
Defined.

(** ** XML escaping *)

Lemma escapeXml_app (a b : string) :
  App.escapeXml (a +:+ b) = App.escapeXml a +:+ App.escapeXml b.
Proof.
  induction a as [|c a IH]; [reflexivity|].
  change (App.escapeXml (String c a +:+ b))
    with (App.escapeChar c +:+ App.escapeXml (a +:+ b)).
  rewrite IH. symmetry. apply string_app_assoc.
Qed.

Lemma escapeChar_markup_free (c m : ascii) :
  m ∈ ["<"; ">"; "'"; "034"]%char ->
  Js.includes (App.escapeChar c) (String m "") = false.
Proof.
  intros Hm. unfold App.escapeChar.
  repeat match goal with
         | |- context [Ascii.eqb c ?x] => destruct (Ascii.eqb_spec c x) as [->|?]
         end;
    rewrite !elem_of_cons, elem_of_nil in Hm;
    destruct Hm as [->|[->|[->|[->|[]]]]]; try reflexivity;
    cbn [Js.includes Js.startsWith];
    match goal with |- context [Ascii.eqb ?x c] =>
      destruct (Ascii.eqb_spec x c); [congruence | reflexivity] end.
Qed.

Lemma escapeChar_nonempty (c : ascii) :
  exists x r, App.escapeChar c = String x r.
Proof.
  unfold App.escapeChar.
  repeat match goal with
         | |- context [if ?t then _ else _] => destruct t
         end; now do 2 eexists.
Qed.

Lemma escapeChar_inj (c d : ascii) (x y : string) :
  App.escapeChar c +:+ x = App.escapeChar d +:+ y -> c = d /\ x = y.
Proof.
  unfold App.escapeChar.
  repeat match goal with
         | |- context [Ascii.eqb c ?z] => destruct (Ascii.eqb_spec c z) as [->|?]
         end;
    repeat match goal with
           | |- context [Ascii.eqb d ?z] => destruct (Ascii.eqb_spec d z) as [->|?]
           end;
    cbn; intros H; try discriminate; try (injection H as ?; subst; auto; congruence).
Qed.

(** X23: escaped text holds none of the characters [<], [>], ['] and the
    double quote, so a title or an author cannot open or close a tag or an
    attribute; escaping goes through concatenation, leaves text without the
    five special characters as it is, and loses nothing: different texts
    have different escaped forms. *)
Theorem escaped_text_is_markup_free (unsafe : string) :
  (forall m, m ∈ ["<"; ">"; "'"; "034"]%char ->
     Js.includes (App.escapeXml unsafe) (String m "") = false) /\
  (forall other, App.escapeXml (unsafe +:+ other)
     = App.escapeXml unsafe +:+ App.escapeXml other) /\
  ((forall m, m ∈ ["<"; ">"; "&"; "'"; "034"]%char ->
      Js.includes unsafe (String m "") = false) ->
   App.escapeXml unsafe = unsafe) /\
  (forall other, App.escapeXml unsafe = App.escapeXml other -> unsafe = other).
Proof.
  split; [|split; [|split]].
  - intros m Hm. induction unsafe as [|c s IH]; [reflexivity|].
    cbn [App.escapeXml]. rewrite includes_char_app, IH.
    now rewrite (escapeChar_markup_free c m Hm).
  - intros other. apply escapeXml_app.
  - induction unsafe as [|c s IH]; [reflexivity|]. intros Hclean.
    cbn [App.escapeXml]. rewrite IH.
    + assert (Hc : forall m, m ∈ ["<"; ">"; "&"; "'"; "034"]%char -> Ascii.eqb c m = false).
      { intros m Hm. specialize (Hclean m Hm). rewrite includes_char_cons in Hclean.
        apply orb_false_iff in Hclean as [Hcm _]. now rewrite Ascii.eqb_sym. }
      unfold App.escapeChar.
      rewrite !Hc by (rewrite !elem_of_cons; tauto). reflexivity.
    + intros m Hm. specialize (Hclean m Hm). rewrite includes_char_cons in Hclean.
      now apply orb_false_iff in Hclean as [_ Hs].
  - induction unsafe as [|c s IH]; intros [|d t] H.
    + reflexivity.
    + exfalso. cbn [App.escapeXml] in H.
      destruct (escapeChar_nonempty d) as (x & r & E). rewrite E in H. discriminate.
    + exfalso. cbn [App.escapeXml] in H.
      destruct (escapeChar_nonempty c) as (x & r & E). rewrite E in H. discriminate.
    + cbn [App.escapeXml] in H. apply escapeChar_inj in H as [-> H].
      f_equal. now apply IH.
Qed.

Lemma escaped_text_is_markup_free_witness :
  App.escapeXml "Charlotte s Web" = "Charlotte s Web".
Proof.
  destruct (escaped_text_is_markup_free "Charlotte s Web") as (_ & _ & Hclean & _).
  apply Hclean. intros m Hm.
  rewrite !elem_of_cons, elem_of_nil in Hm.
  destruct Hm as [->|[->|[->|[->|[->|[]]]]]]; reflexivity.
Defined.

(** ** Pages of five *)

Lemma chunkLoop_spec {A : Type} (allBooks : list A) (fuel i : nat) :
  (length allBooks - i <= fuel)%nat ->
  concat (App.chunkLoop fuel i allBooks) = drop i allBooks /\
  Forall (fun chunk => (1 <= length chunk <= 5)%nat) (App.chunkLoop fuel i allBooks) /\
  length (App.chunkLoop fuel i allBooks) = ((length allBooks - i + 4) / 5)%nat.
Proof.
  revert i; induction fuel as [|fuel IH]; intros i Hfuel; cbn [App.chunkLoop].
  - assert (Hi : (length allBooks <= i)%nat) by lia.
    rewrite (drop_ge _ _ Hi).
    replace (length allBooks - i + 4)%nat with 4%nat by lia.
    repeat split. constructor.
  - destruct (Nat.ltb_spec i (length allBooks)) as [Hlt|Hge].
    + destruct (IH (i + 5)%nat ltac:(lia)) as (Hcat & Hall & Hlen).
      cbn [concat length]. rewrite Hcat, Hlen. repeat split.
      * rewrite <- drop_drop. apply take_drop.
      * constructor; [|exact Hall]. rewrite length_take, length_drop. lia.
      * pose proof (Nat.div_mod_eq (length allBooks - i + 4) 5).
        pose proof (Nat.mod_upper_bound (length allBooks - i + 4) 5 ltac:(lia)).
        pose proof (Nat.div_mod_eq (length allBooks - (i + 5) + 4) 5).
        pose proof (Nat.mod_upper_bound (length allBooks - (i + 5) + 4) 5 ltac:(lia)).
        lia.
    + rewrite (drop_ge _ _ Hge).
      replace (length allBooks - i + 4)%nat with 4%nat by lia.
      repeat split. constructor.
Qed.

(** X24: the pages of the printable deck partition the shown books in
    order: concatenating the chunks gives the list back, every chunk holds
    between one and five books, and n books make ceil(n / 5) chunks (none
    for an empty list). *)
Theorem chunks_partition_the_books {A : Type} (allBooks : list A) :
  concat (App.getCustomChunks allBooks) = allBooks /\
  Forall (fun chunk => (1 <= length chunk <= 5)%nat) (App.getCustomChunks allBooks) /\
  length (App.getCustomChunks allBooks) = ((length allBooks + 4) / 5)%nat.
Proof.
  destruct (chunkLoop_spec allBooks (length allBooks) 0 ltac:(lia)) as (Hcat & Hall & Hlen).
  unfold App.getCustomChunks. rewrite Nat.sub_0_r in Hlen. now rewrite drop_0 in Hcat.
Qed.

(** ** Fetching recommendations from the application *)

Section FetchProperties.

Variable Book : Type.
Variable JSON_parse : string -> option (RecommendationResult Book).
Variable JSON_stringify : RecommendationResult Book -> string.
Variable RAW_BOOK_DATABASE_TSV : string.
Variable withinWidenedRange : jsnum -> Q -> Q -> bool.



End FetchProperties.


(** ** Uploading a cover *)

Section UploadProperties.

Variable JSON_parse : string -> option Verdict.

(** X26: an uploaded cover replaces the override of the book, and is shown,
    only when verification returned a verdict with [isMatch] true; a card
    given that override then shows the uploaded image without any lookup.
    With the credential missing, the service call rejected, or a response
    that does not parse, the overrides and the shown cover stay as they were
    and one alert is raised; in every case the verifying flag ends
    cleared. *)
Theorem upload_needs_a_match
    (API_KEY : option string) (generateContent : ImageRequest -> response)
    (bookId title author image : string) (overrides : gmap string string) (s : Card.State) :
  let after := Card.handleFileChange JSON_parse API_KEY generateContent bookId title author
                 (Some image) true overrides s in
  let verdict := verifyBookCoverMatch JSON_parse API_KEY generateContent image title author in
  Card.isVerifying (fst after) = false /\
  ((exists v, verdict = Returned v /\ isMatch v = true) ->
     snd after = <[bookId := image]> overrides /\
     Card.coverUrl (fst after) = Some image /\
     Card.alerts (fst after) = Card.alerts s /\
     (Js.isEmpty image = false ->
      forall key googleBooks openLibrary googleFirst isMounted st,
        Card.showCover (snd after !! bookId) key googleBooks openLibrary googleFirst
          isMounted st = Some (st, Some image))) /\
  (~ (exists v, verdict = Returned v /\ isMatch v = true) ->
     snd after = overrides /\
     Card.coverUrl (fst after) = Card.coverUrl s /\
     length (Card.alerts (fst after)) = S (length (Card.alerts s))) /\
  (Js.truthy API_KEY = false \/
   generateContent (verificationRequest image title author) = Rejected \/
   (exists text, generateContent (verificationRequest image title author) = Response text /\
                 JSON_parse (Js.orElse text noResponseText) = None) ->
   ~ (exists v, verdict = Returned v /\ isMatch v = true)).
Proof.
  intros after verdict. unfold after, Card.handleFileChange. fold verdict.
  split; [|split; [|split]].
  - destruct verdict as [v|e]; [destruct (isMatch v)|]; reflexivity.
  - intros (v & -> & Hv). rewrite Hv. cbn [fst snd Card.coverUrl Card.alerts].
    repeat split. intros Himage key googleBooks openLibrary googleFirst isMounted st.
    rewrite lookup_insert_eq. unfold Card.showCover. cbn [Js.truthy]. now rewrite Himage.
  - intros Hno. destruct verdict as [v|e].
    + destruct (isMatch v) eqn:Hv; [exfalso; apply Hno; now exists v|].
      cbn [fst snd Card.coverUrl Card.alerts]. rewrite length_app. cbn. repeat split. lia.
    + cbn [fst snd Card.coverUrl Card.alerts]. rewrite length_app. cbn. repeat split. lia.
  - intros Hfail (v & Hv & Hmatch).
    destruct (verification_fails_closed JSON_parse API_KEY generateContent image title author)
      as [Hpresent Hmissing].
    fold verdict in Hpresent, Hmissing.
    destruct (Js.truthy API_KEY) eqn:Hkey.
    + destruct (Hpresent eq_refl) as (_ & Hrej & Hparse).
      destruct Hfail as [Hf|[Hf|(text & Hf & Hp)]]; [discriminate| |].
      * rewrite (Hrej Hf) in Hv. injection Hv as <-. discriminate.
      * rewrite (Hparse text Hf Hp) in Hv. injection Hv as <-. discriminate.
    + rewrite (Hmissing eq_refl) in Hv. discriminate.
Qed.

End UploadProperties.

Lemma upload_needs_a_match_witness :
  let after := Card.handleFileChange sampleVerdictParse (Some "secret")
                 (fun _ => Response (Some "yes")) "7" "Charlotte's Web" "E.B. White"
                 (Some "data:image/jpeg;base64,AAAA") true ∅
                 {| Card.coverUrl := None; Card.isVerifying := true; Card.alerts := [] |} in
  snd after = <["7" := "data:image/jpeg;base64,AAAA"]> ∅ /\
  Card.coverUrl (fst after) = Some "data:image/jpeg;base64,AAAA" /\
  Card.alerts (fst after) = [] /\
  (Js.isEmpty "data:image/jpeg;base64,AAAA" = false ->
   forall key googleBooks openLibrary googleFirst isMounted st,
     Card.showCover (snd after !! "7") key googleBooks openLibrary googleFirst
       isMounted st = Some (st, Some "data:image/jpeg;base64,AAAA")).
Proof.
  intros after.
  destruct (upload_needs_a_match sampleVerdictParse (Some "secret")
              (fun _ => Response (Some "yes")) "7" "Charlotte's Web" "E.B. White"
              "data:image/jpeg;base64,AAAA" ∅
              {| Card.coverUrl := None; Card.isVerifying := true; Card.alerts := [] |})
    as (_ & Hmatch & _).
  apply Hmatch. eexists. split; reflexivity.
Defined.

(** ** The two cover sources *)

Lemma replaceFirst_nonempty (pattern replacement s : string) :
  Js.isEmpty replacement = false -> Js.isEmpty s = false ->
  Js.isEmpty (Card.replaceFirst pattern replacement s) = false.
Proof.
  intros Hr Hs. destruct s as [|c s]; [discriminate|].
  cbn [Card.replaceFirst]. destruct (Js.startsWith _ pattern); [|reflexivity].
  destruct replacement; [discriminate | reflexivity].
Qed.

(** X27: a source lookup either fails or yields a non-empty URL; it never
    fulfils with null or the empty string.  An Open Library cover is an
    [https://covers.openlibrary.org] URL, so it is always put in proxied
    form, and a Google Books thumbnail given with [http://] is upgraded to
    [https://] before it is proxied. *)
Theorem sources_yield_usable_urls :
  (forall response,
     Cover.lookupFails (Card.fetchOpenLibrary response) = true \/
     exists n, n <> 0 /\
       Cover.lookupYields (Card.fetchOpenLibrary response)
         ("https://covers.openlibrary.org/b/id/" +:+ pretty n +:+ "-L.jpg") /\
       Cover.getProxiedUrl ("https://covers.openlibrary.org/b/id/" +:+ pretty n +:+ "-L.jpg")
         = Cover.proxied ("https://covers.openlibrary.org/b/id/" +:+ pretty n +:+ "-L.jpg")) /\
  (forall response,
     Cover.lookupFails (Card.fetchGoogleBooks response) = true \/
     exists u, Cover.lookupYields (Card.fetchGoogleBooks response) u) /\
  (forall rest small more,
     Cover.lookupYields
       (Card.fetchGoogleBooks
          (Some (Some ({| Card.volumeInfo := Some {| Card.imageLinks :=
               Some {| Card.thumbnail := Some ("http://" +:+ rest);
                       Card.smallThumbnail := small |} |} |} :: more))))
       ("https://" +:+ Card.replaceFirst "&zoom=1" "&zoom=0" rest)).
Proof.
  split; [|split].
  - intros [[[|[[n|]] docs]|]|]; try (now left). cbn [Card.fetchOpenLibrary].
    destruct (Z.eqb_spec n 0) as [->|Hn]; [now left|].
    right. exists n. repeat split; exact Hn.
  - intros [[[|[[[[links|]]|]] vols]|]|]; try (now left). cbn [Card.fetchGoogleBooks].
    destruct (Js.truthy (if Js.truthy (Card.thumbnail links) then _ else _)) eqn:Hurl;
      [|now left].
    right. eexists. split; [reflexivity|].
    apply replaceFirst_nonempty; [reflexivity|].
    apply replaceFirst_nonempty; [reflexivity|].
    destruct (if Js.truthy (Card.thumbnail links) then _ else _) as [u|];
      [|discriminate].
    cbn [Js.truthy] in Hurl. apply negb_true_iff in Hurl.
    cbn [Js.orElse]. now rewrite Hurl.
  - intros rest small more. split; [|reflexivity].
    destruct rest; reflexivity.
Qed.

(** ** Sections of the monthly view and the difficulty chart *)

Section SectionProperties.

Variable Book : Type.
Variable category : Book -> string.

Lemma filter_disjoint_length (p q : Book -> bool) (l : list Book) :
  (forall b, p b = true -> q b = true -> False) ->
  (length (List.filter p l) + length (List.filter q l) <= length l)%nat /\
  ((forall b, b ∈ l -> p b = true \/ q b = true) ->
   (length (List.filter p l) + length (List.filter q l) = length l)%nat).
Proof.
  intros Hdisj. induction l as [|b l [IHle IHeq]]; [now split|].
  cbn [List.filter]. split.
  - destruct (p b) eqn:Hp, (q b) eqn:Hq; cbn [length]; try lia.
    exfalso. now apply (Hdisj b).
  - intros Hall.
    assert (Hl : forall b', b' ∈ l -> p b' = true \/ q b' = true)
      by (intros b' Hb'; apply Hall; now right).
    specialize (IHeq Hl).
    destruct (p b) eqn:Hp, (q b) eqn:Hq; cbn [length]; try lia.
    + exfalso. now apply (Hdisj b).
    + exfalso. destruct (Hall b ltac:(left)); congruence.
Qed.

(** X28: in the monthly view no book is rendered in both sections, and a
    book is rendered in one of them exactly when its category is "Must Read"
    or "Recommended Reading": a book with any other category is shown in
    neither. *)
Theorem monthly_sections_split_the_books (displayBooks : list Book) (b : Book) :
  let must := App.mustReadBooks Book category App.Monthly displayBooks in
  let recommended := App.recommendedBooks Book category App.Monthly displayBooks in
  ~ (b ∈ must /\ b ∈ recommended) /\
  (b ∈ must \/ b ∈ recommended <->
   b ∈ displayBooks /\ (category b = "Must Read" \/ category b = "Recommended Reading")) /\
  (length must + length recommended <= length displayBooks)%nat.
Proof.
  intros must recommended. unfold must, recommended, App.mustReadBooks, App.recommendedBooks.
  rewrite !list_elem_of_In, !filter_In. unfold App.hasCategory.
  rewrite !String.eqb_eq. split; [|split].
  - intros [[_ H1] [_ H2]]. congruence.
  - tauto.
  - apply filter_disjoint_length. unfold App.hasCategory. intros b'.
    rewrite !String.eqb_eq. congruence.
Qed.

End SectionProperties.

Section ChartProperties.

Variable Book : Type.
Variable difficulty : Book -> string.

Lemma count_three_le (shown : list Book) :
  (App.countDifficulty Book difficulty "Beginner" shown
   + App.countDifficulty Book difficulty "Intermediate" shown
   + App.countDifficulty Book difficulty "Advanced" shown <= length shown)%nat /\
  ((forall b, b ∈ shown -> difficulty b ∈ ["Beginner"; "Intermediate"; "Advanced"]) ->
   (App.countDifficulty Book difficulty "Beginner" shown
    + App.countDifficulty Book difficulty "Intermediate" shown
    + App.countDifficulty Book difficulty "Advanced" shown = length shown)%nat).
Proof.
  unfold App.countDifficulty. induction shown as [|b l [IHle IHeq]]; [now split|].
  cbn [List.filter]. split.
  - destruct (String.eqb_spec (difficulty b) "Beginner") as [E|_];
      [rewrite E|]; cbn [String.eqb Ascii.eqb Bool.eqb andb length];
      [lia|].
    destruct (String.eqb_spec (difficulty b) "Intermediate") as [E|_];
      [rewrite E|]; cbn [String.eqb Ascii.eqb Bool.eqb andb length];
      [lia|].
    destruct (String.eqb (difficulty b) "Advanced"); cbn [length]; lia.
  - intros Hall.
    assert (Hl : forall b', b' ∈ l ->
              difficulty b' ∈ ["Beginner"; "Intermediate"; "Advanced"])
      by (intros b' Hb'; apply Hall; now right).
    specialize (IHeq Hl).
    pose proof (Hall b ltac:(left)) as Hb.
    rewrite !elem_of_cons, elem_of_nil in Hb.
    destruct Hb as [E|[E|[E|[]]]]; rewrite E;
      cbn [String.eqb Ascii.eqb Bool.eqb andb length]; lia.
Qed.

(** X29: every slice of the difficulty chart has a positive value, a slice
    is present exactly for the difficulties that occur among the shown
    books, and the values add up to at most the number of shown books, to
    exactly that number when every book's difficulty is one of "Beginner",
    "Intermediate" and "Advanced". *)
Theorem chart_slices_count_the_books (shown : list Book) :
  let total := foldr (fun slice n => (snd slice + n)%nat) 0%nat
                 (App.chartData Book difficulty shown) in
  (forall slice, slice ∈ App.chartData Book difficulty shown ->
     (0 < snd slice)%nat /\
     snd slice = App.countDifficulty Book difficulty (fst slice) shown /\
     exists b, b ∈ shown /\ difficulty b = fst slice) /\
  (total <= length shown)%nat /\
  ((forall b, b ∈ shown -> difficulty b ∈ ["Beginner"; "Intermediate"; "Advanced"]) ->
   total = length shown).
Proof.
  intros total.
  assert (Htotal : total
            = (App.countDifficulty Book difficulty "Beginner" shown
               + App.countDifficulty Book difficulty "Intermediate" shown
               + App.countDifficulty Book difficulty "Advanced" shown)%nat).
  { unfold total, App.chartData. cbn [List.filter snd].
    destruct (App.countDifficulty Book difficulty "Beginner" shown) as [|x];
      destruct (App.countDifficulty Book difficulty "Intermediate" shown) as [|y];
      destruct (App.countDifficulty Book difficulty "Advanced" shown) as [|z];
      cbn; lia. }
  destruct (count_three_le shown) as [Hle Heq].
  split; [|split; [lia | intros Hall; specialize (Heq Hall); lia]].
  intros slice Hslice. unfold App.chartData in Hslice.
  rewrite list_elem_of_In, filter_In, <- list_elem_of_In in Hslice.
  destruct Hslice as [Hin Hpos]. apply Nat.ltb_lt in Hpos.
  assert (Hcount : snd slice = App.countDifficulty Book difficulty (fst slice) shown).
  { rewrite !elem_of_cons, elem_of_nil in Hin.
    destruct Hin as [->|[->|[->|[]]]]; reflexivity. }
  repeat split; [exact Hpos | exact Hcount|].
  rewrite Hcount in Hpos. unfold App.countDifficulty in Hpos.
  destruct (List.filter _ shown) as [|b l] eqn:Hf; [cbn in Hpos; lia|].
  assert (Hb : In b (List.filter (fun b => String.eqb (difficulty b) (fst slice)) shown))
    by (rewrite Hf; now left).
  apply filter_In in Hb as [Hb Hd]. exists b.
  split; [now apply list_elem_of_In | now apply String.eqb_eq].
Qed.

End ChartProperties.

(** ** Service worker activation *)

Lemma foldr_delete_lookup {Cache : Type} (names : list string) (caches : gmap string Cache)
    (name : string) :
  foldr (fun cacheName cs =>
           if bool_decide (cacheName ∈ [ServiceWorker.CACHE_NAME]) then cs
           else delete cacheName cs) caches names !! name
  = if bool_decide (name ∈ names /\ name <> ServiceWorker.CACHE_NAME)
    then None else caches !! name.
Proof.
  induction names as [|n names IH]; cbn [foldr].
  - rewrite bool_decide_eq_false_2; [reflexivity|]. intros [H _]. now apply elem_of_nil in H.
  - destruct (bool_decide_reflect (n ∈ [ServiceWorker.CACHE_NAME])) as [Hn|Hn].
    + apply list_elem_of_singleton in Hn. rewrite IH.
      assert (Hiff : name ∈ names /\ name <> ServiceWorker.CACHE_NAME <->
                     name ∈ n :: names /\ name <> ServiceWorker.CACHE_NAME).
      { rewrite elem_of_cons. split; [tauto|].
        intros [[->|H] Hne]; [congruence | tauto]. }
      now rewrite (bool_decide_ext _ _ Hiff).
    + rewrite list_elem_of_singleton in Hn.
      destruct (decide (n = name)) as [->|Hne].
      * rewrite lookup_delete_eq. rewrite bool_decide_eq_true_2; [reflexivity|].
        split; [now left | exact Hn].
      * rewrite lookup_delete_ne by exact Hne. rewrite IH.
        assert (Hiff : name ∈ names /\ name <> ServiceWorker.CACHE_NAME <->
                       name ∈ n :: names /\ name <> ServiceWorker.CACHE_NAME).
        { rewrite elem_of_cons. split; [tauto|].
          intros [[->|H] Hc]; [congruence | tauto]. }
        now rewrite (bool_decide_ext _ _ Hiff).
Qed.

(** X30: after activation the only cache left is "cec-v1", with the content
    it had: every cache of another name is deleted. *)
Theorem activation_keeps_only_current_cache {Cache : Type}
    (caches : gmap string Cache) (name : string) :
  ServiceWorker.activate caches !! name
  = if decide (name = ServiceWorker.CACHE_NAME) then caches !! name else None.
Proof.
  unfold ServiceWorker.activate. rewrite foldr_delete_lookup.
  destruct (decide (name = ServiceWorker.CACHE_NAME)) as [->|Hne].
  - rewrite bool_decide_eq_false_2; [reflexivity | tauto].
  - destruct (caches !! name) as [c|] eqn:Hc.
    + rewrite bool_decide_eq_true_2; [reflexivity|]. split; [|exact Hne].
      apply list_elem_of_fmap. exists (name, c). split; [reflexivity|].
      now apply elem_of_map_to_list.
    + now destruct (bool_decide _).
Qed.

Lemma monthly_sections_split_the_books_witness :
  "Stuart Little" ∈ App.mustReadBooks string
     (fun b => if String.eqb b "Stuart Little" then "Must Read" else "Recommended Reading")
     App.Monthly ["Charlotte's Web"; "Stuart Little"] \/
  "Stuart Little" ∈ App.recommendedBooks string
     (fun b => if String.eqb b "Stuart Little" then "Must Read" else "Recommended Reading")
     App.Monthly ["Charlotte's Web"; "Stuart Little"].
Proof.
  apply (monthly_sections_split_the_books string
           (fun b => if String.eqb b "Stuart Little" then "Must Read"
                     else "Recommended Reading")
           ["Charlotte's Web"; "Stuart Little"] "Stuart Little").
  split; [right; left | left; reflexivity].
Defined.

Lemma chart_slices_count_the_books_witness :
  foldr (fun slice n => (snd slice + n)%nat) 0%nat
    (App.chartData string (fun b => b) ["Beginner"; "Advanced"; "Beginner"]) = 3%nat.
Proof.
  apply (chart_slices_count_the_books string (fun b => b) ["Beginner"; "Advanced"; "Beginner"]).
  intros b Hb. rewrite !elem_of_cons, elem_of_nil in Hb.
  destruct Hb as [->|[->|[->|[]]]]; rewrite !elem_of_cons; tauto.
Defined.
